(** * nanobot/providers/custom_provider.py : the OpenAI-compatible provider

    A shallow embedding of [CustomProvider] and the properties of its
    chat path and of its model-catalog bookkeeping.

    Python objects that the class mutates live in a [world]: the instance
    attributes, a store of list objects addressed by reference, the
    requests sent through the client handle and the records handed to the
    logger.  Methods are computations in a state-and-exception monad, so
    that [try ... except Exception] is modelled by a handler and not by a
    convention. *)

From Stdlib Require Import ZArith.
From Stdlib Require Import Floats.PrimFloat.
From stdpp Require Import base option list strings gmap.

Local Open Scope Z_scope.
Local Open Scope string_scope.
Local Open Scope list_scope.

(** ** Python values *)

(** [Any]: what a message field, a tool definition or a parsed argument
    payload may hold.  Nested dictionaries keep their items in order. *)
#[local] Unset Elimination Schemes.
Inductive pyval : Type :=
| PNone
| PBool (b : bool)
| PInt (z : Z)
| PFloat (f : float)
| PStr (s : string)
| PList (items : list pyval)
| PDict (items : list (string * pyval)).
#[local] Set Elimination Schemes.

(** [dict[str, Any]], the shape of one message and of one tool definition. *)
Abbreviation pydict := (gmap string pyval).

(** Instances of [Exception]: the class name and what [str(e)] prints. *)
Record exn : Type := Exn { exn_class : string; exn_str : string }.

(** References to list objects.  The store only grows, an allocation
    takes the next free index. *)
Abbreviation ref := nat (only parsing).
Abbreviation store := (list (list string)) (only parsing).

(** ** The vendor's reply objects (openai SDK) *)

Record Model : Type := { model_id : string }.

Record FunctionCall : Type := { fn_name : string; fn_arguments : pyval }.

Record ToolCall : Type := { tc_id : string; tc_function : FunctionCall }.

Record ChatCompletionMessage : Type := {
  msg_content : option string;
  msg_tool_calls : option (list ToolCall);
  (* [None]: the attribute is missing or null *)
  msg_reasoning_content : option string
}.

Record Choice : Type := {
  choice_message : ChatCompletionMessage;
  choice_finish_reason : option string
}.

Record CompletionUsage : Type := {
  prompt_tokens : Z;
  completion_tokens : Z;
  total_tokens : Z
}.

Record ChatCompletion : Type := {
  choices : list Choice;
  resp_usage : option CompletionUsage
}.

(** ** nanobot.providers.base *)

(** Modelled from the spec: the declaration of [ToolCallRequest] in
    nanobot/providers/base.py (call identifier, tool name, arguments as a
    parsed value). *)
Record ToolCallRequest : Type := {
  call_id : string;
  call_name : string;
  call_arguments : pyval
}.

(** Modelled from the spec: the declaration of [LLMResponse] in
    nanobot/providers/base.py (nullable content, tool calls, finish-reason
    tag, usage mapping, nullable reasoning trace). *)
Record LLMResponse : Type := {
  content : option string;
  tool_calls : list ToolCallRequest;
  finish_reason : string;
  usage : gmap string Z;
  reasoning_content : option string
}.

(** [LLMResponse(content=c, finish_reason=r)]: the other fields take the
    defaults of the declaration. *)
Definition LLMResponse_default (c : option string) (r : string) : LLMResponse :=
  {| content := c; tool_calls := []; finish_reason := r; usage := ∅;
     reasoning_content := None |}.

(** Modelled from the spec: [LLMProvider._sanitize_empty_content] of
    nanobot/providers/base.py.  A message whose content is missing, null or
    empty is sent with content set to the empty string; the other messages
    and the other keys are left as they are. *)
Definition content_is_empty (m : pydict) : bool :=
  match m !! "content" with
  | None | Some PNone | Some (PStr "") | Some (PList []) => true
  | Some _ => false
  end.

Definition sanitize_message (m : pydict) : pydict :=
  if content_is_empty m then <["content" := PStr ""]> m else m.

Definition _sanitize_empty_content (messages : list pydict) : list pydict :=
  sanitize_message <$> messages.

(** ** The world of one adapter instance *)

Record CustomProvider : Type := {
  api_key : string;
  api_base : string;
  default_model : string;
  _current_model : string;
  _available_models : ref;
  _models_loaded : bool
}.

(** The keyword arguments of [chat.completions.create].  [tools] and
    [tool_choice] are keys that [chat] adds only for a non-empty tool list. *)
Record chat_kwargs : Type := {
  kw_model : string;
  kw_messages : list pydict;
  kw_max_tokens : Z;
  kw_temperature : float;
  kw_tools : option (list pydict);
  kw_tool_choice : option string
}.

Inductive request : Type :=
| GET_models
| POST_chat_completions (kwargs : chat_kwargs).

Inductive log_record : Type :=
| INFO_fetched (n : nat) (base : string)
| WARNING_fetch_failed (e : exn)
| INFO_switched (model_name : string)
| INFO_set_unverified (model_name : string).

Record world : Type := {
  self : CustomProvider;
  heap : store;
  sent : list request;
  logged : list log_record
}.

(** ** Computations that may raise *)

Inductive outcome (A : Type) : Type :=
| Return (a : A)
| Raise (e : exn).
Arguments Return {A} a.
Arguments Raise {A} e.

Definition M (A : Type) : Type := world → outcome A * world.

Definition ret {A} (a : A) : M A := λ w, (Return a, w).

Definition bind {A B} (c : M A) (k : A → M B) : M B :=
  λ w, match c w with
       | (Return a, w') => k a w'
       | (Raise e, w') => (Raise e, w')
       end.

Definition raise {A} (e : exn) : M A := λ w, (Raise e, w).

(** [try: body except Exception as e: handler(e)].  What the body wrote
    before it raised stays written. *)
Definition try_except {A} (body : M A) (handler : exn → M A) : M A :=
  λ w, match body w with
       | (Return a, w') => (Return a, w')
       | (Raise e, w') => handler e w'
       end.

Notation "'let*' x ':=' c 'in' k" := (bind c (λ x, k))
  (at level 10, x name, c at level 100, k at level 200).
Notation "c ;;; k" := (bind c (λ _, k))
  (at level 100, right associativity).

Definition lift_outcome {A} (o : outcome A) : M A := λ w, (o, w).

(** *** Attribute reads and writes on [self] *)

Definition get_self : M CustomProvider := λ w, (Return (self w), w).

Definition set_self (p : CustomProvider) : M unit :=
  λ w, (Return (), {| self := p; heap := heap w; sent := sent w; logged := logged w |}).

Definition with_current_model (v : string) (p : CustomProvider) : CustomProvider :=
  {| api_key := api_key p; api_base := api_base p; default_model := default_model p;
     _current_model := v; _available_models := _available_models p;
     _models_loaded := _models_loaded p |}.

Definition with_available_models (v : ref) (p : CustomProvider) : CustomProvider :=
  {| api_key := api_key p; api_base := api_base p; default_model := default_model p;
     _current_model := _current_model p; _available_models := v;
     _models_loaded := _models_loaded p |}.

Definition with_models_loaded (v : bool) (p : CustomProvider) : CustomProvider :=
  {| api_key := api_key p; api_base := api_base p; default_model := default_model p;
     _current_model := _current_model p; _available_models := _available_models p;
     _models_loaded := v |}.

Definition set_current_model (v : string) : M unit :=
  let* p := get_self in set_self (with_current_model v p).

Definition set_available_models (v : ref) : M unit :=
  let* p := get_self in set_self (with_available_models v p).

Definition set_models_loaded (v : bool) : M unit :=
  let* p := get_self in set_self (with_models_loaded v p).

(** *** List objects *)

(** A list display or comprehension: a new object. *)
Definition new_list (xs : list string) : M ref :=
  λ w, (Return (length (heap w)),
        {| self := self w; heap := heap w ++ [xs]; sent := sent w; logged := logged w |}).

Definition deref (l : ref) (h : store) : list string := default [] (h !! l).

Definition read_list (l : ref) : M (list string) :=
  λ w, (Return (deref l (heap w)), w).

(** [len(l)] *)
Definition list_len (l : ref) : M nat :=
  let* xs := read_list l in ret (length xs).

(** [l.copy()] *)
Definition list_copy (l : ref) : M ref :=
  let* xs := read_list l in new_list xs.

(** *** The logger *)

Definition logger (r : log_record) : M unit :=
  λ w, (Return (),
        {| self := self w; heap := heap w; sent := sent w; logged := logged w ++ [r] |}).

(** ** The adapter *)

(** What stands behind the client handle and the repair library.  A reply
    is a function of everything sent so far, the request it answers being
    the last one; any call may raise. *)
Record endpoint : Type := {
  models_reply : list request → outcome (list Model);
  chat_reply : list request → outcome ChatCompletion
}.

(** [CustomProvider(api_key, api_base, default_model)] in an empty store.
    The client handle is bound to the same key and base URL. *)
Definition __init__ (key base model : string) : world :=
  {| self := {| api_key := key; api_base := base; default_model := model;
                _current_model := model; _available_models := 0%nat;
                _models_loaded := false |};
     heap := [[]]; sent := []; logged := [] |}.

Section Adapter.

Variable api : endpoint.

(** [json_repair.loads] *)
Variable json_repair_loads : string → outcome pyval.

(** [await self._client.models.list()], then [response.data] *)
Definition client_models_list : M (list Model) :=
  λ w, let trace := sent w ++ [GET_models] in
       (models_reply api trace,
        {| self := self w; heap := heap w; sent := trace; logged := logged w |}).

(** [await self._client.chat.completions.create], called with [kwargs] *)
Definition client_chat_completions_create (kwargs : chat_kwargs) : M ChatCompletion :=
  λ w, let trace := sent w ++ [POST_chat_completions kwargs] in
       (chat_reply api trace,
        {| self := self w; heap := heap w; sent := trace; logged := logged w |}).

Definition _fetch_models : M ref :=
  try_except
    (let* data := client_models_list in
     let* models := new_list (model_id <$> data) in
     let* n := list_len models in
     let* p := get_self in
     logger (INFO_fetched n (api_base p)) ;;;
     ret models)
    (λ e, logger (WARNING_fetch_failed e) ;;; new_list []).

Definition _ensure_models_loaded : M unit :=
  let* p := get_self in
  if negb (_models_loaded p) then
    let* models := _fetch_models in
    set_available_models models ;;;
    set_models_loaded true
  else ret ().

(** The items of [response.choices[0].message.tool_calls], each turned
    into a [ToolCallRequest]; the comprehension stops at the first item
    whose argument payload makes the repair step raise. *)
Definition parse_tool_call (tc : ToolCall) : M ToolCallRequest :=
  let* args := match fn_arguments (tc_function tc) with
         | PStr s => lift_outcome (json_repair_loads s)
         | v => ret v
         end in
  ret {| call_id := tc_id tc; call_name := fn_name (tc_function tc);
         call_arguments := args |}.

Fixpoint parse_tool_calls (tcs : list ToolCall) : M (list ToolCallRequest) :=
  match tcs with
  | [] => ret []
  | tc :: rest =>
      let* r := parse_tool_call tc in
      let* rs := parse_tool_calls rest in
      ret (r :: rs)
  end.

(** [x or d] on an optional string: null and the empty string are falsy. *)
Definition str_or (x : option string) (d : string) : string :=
  match x with
  | Some s => if bool_decide (s = "") then d else s
  | None => d
  end.

(** [x or None] *)
Definition str_or_None (x : option string) : option string :=
  match x with
  | Some s => if bool_decide (s = "") then None else Some s
  | None => None
  end.

Definition usage_dict (u : CompletionUsage) : gmap string Z :=
  <["prompt_tokens" := prompt_tokens u]>
    (<["completion_tokens" := completion_tokens u]>
       (<["total_tokens" := total_tokens u]> ∅)).

Definition _parse (response : ChatCompletion) : M LLMResponse :=
  let* choice := match choices response with
           | c :: _ => ret c
           | [] => raise (Exn "IndexError" "list index out of range")
           end in
  let msg := choice_message choice in
  let* calls := parse_tool_calls (default [] (msg_tool_calls msg)) in
  let u := resp_usage response in
  ret {| content := msg_content msg;
         tool_calls := calls;
         finish_reason := str_or (choice_finish_reason choice) "stop";
         usage := match u with Some u => usage_dict u | None => ∅ end;
         reasoning_content := str_or_None (msg_reasoning_content msg) |}.

(** [if tools:] holds for a list with at least one item. *)
Definition tools_given (tools : option (list pydict)) : bool :=
  match tools with
  | Some (_ :: _) => true
  | _ => false
  end.

Definition chat_request (p : CustomProvider) (messages : list pydict)
    (tools : option (list pydict)) (model : option string)
    (max_tokens : Z) (temperature : float) : chat_kwargs :=
  {| kw_model := str_or model (_current_model p);
     kw_messages := _sanitize_empty_content messages;
     kw_max_tokens := Z.max 1 max_tokens;
     kw_temperature := temperature;
     kw_tools := if tools_given tools then tools else None;
     kw_tool_choice := if tools_given tools then Some "auto" else None |}.

Definition chat (messages : list pydict) (tools : option (list pydict))
    (model : option string) (max_tokens : Z) (temperature : float) : M LLMResponse :=
  let* p := get_self in
  let kwargs := chat_request p messages tools model max_tokens temperature in
  try_except
    (let* response := client_chat_completions_create kwargs in _parse response)
    (λ e, ret (LLMResponse_default (Some ("Error: " +:+ exn_str e)) "error")).

Definition get_default_model : M string :=
  let* p := get_self in ret (default_model p).

Definition list_models : M ref :=
  _ensure_models_loaded ;;;
  let* p := get_self in
  list_copy (_available_models p).

Definition get_current_model : M string :=
  let* p := get_self in ret (_current_model p).

Definition set_model (model_name : string) : M bool :=
  let* p := get_self in
  if _models_loaded p then
    let* models := read_list (_available_models p) in
    if bool_decide (model_name ∈ models) then
      set_current_model model_name ;;;
      logger (INFO_switched model_name) ;;;
      ret true
    else ret false
  else if bool_decide (model_name ≠ "") then
    set_current_model model_name ;;;
    logger (INFO_set_unverified model_name) ;;;
    ret true
  else ret false.

Definition refresh_models : M bool :=
  try_except
    (let* models := _fetch_models in
     set_available_models models ;;;
     set_models_loaded true ;;;
     ret true)
    (λ _, ret false).

End Adapter.

(** ** Observations on a world *)

(** The contents of the list that [self._available_models] refers to. *)
Definition catalog (w : world) : list string :=
  deref (_available_models (self w)) (heap w).

(** The catalog attribute refers to an allocated list. *)
Definition wf (w : world) : Prop :=
  (_available_models (self w) < length (heap w))%nat.

(** The caller mutates, in place, a list object it holds a reference to. *)
Definition caller_writes (l : ref) (xs : list string) (w : world) : world :=
  {| self := self w; heap := <[l := xs]> (heap w); sent := sent w; logged := logged w |}.

(** *** What a fetch and a request do to the world *)

(** The model identifiers that a fetch issued in [w] yields: the server's
    listing in its order, or nothing when the request fails. *)
Definition fetched (api : endpoint) (w : world) : list string :=
  match models_reply api (sent w ++ [GET_models]) with
  | Return data => model_id <$> data
  | Raise _ => []
  end.

Definition fetch_log (api : endpoint) (w : world) : log_record :=
  match models_reply api (sent w ++ [GET_models]) with
  | Return data => INFO_fetched (length data) (api_base (self w))
  | Raise e => WARNING_fetch_failed e
  end.

(** The world after [self._available_models = await self._fetch_models()]
    and [self._models_loaded = True]. *)
Definition reloaded (api : endpoint) (w : world) : world :=
  {| self := with_models_loaded true
               (with_available_models (length (heap w)) (self w));
     heap := heap w ++ [fetched api w];
     sent := sent w ++ [GET_models];
     logged := logged w ++ [fetch_log api w] |}.

(** The world once the request has gone out. *)
Definition posted (kwargs : chat_kwargs) (w : world) : world :=
  {| self := self w; heap := heap w;
     sent := sent w ++ [POST_chat_completions kwargs]; logged := logged w |}.

(** The answer of the handler of [chat]. *)
Definition chat_error (e : exn) : LLMResponse :=
  LLMResponse_default (Some ("Error: " +:+ exn_str e)) "error".

(** *** Tool calls and their requests *)

(** The repair step answers on the argument payload of [tc] whenever that
    payload is a string. *)
Definition repair_returns (loads : string → outcome pyval) (tc : ToolCall) : Prop :=
  ∀ s, fn_arguments (tc_function tc) = PStr s → ∃ v, loads s = Return v.

(** [r] is the request made from [tc]: same identifier, same tool name,
    and for arguments what the repair step made of a string payload, or the
    payload itself when the vendor sent a structured value. *)
Definition parsed_from (loads : string → outcome pyval)
    (tc : ToolCall) (r : ToolCallRequest) : Prop :=
  call_id r = tc_id tc ∧
  call_name r = fn_name (tc_function tc) ∧
  match fn_arguments (tc_function tc) with
  | PStr s => loads s = Return (call_arguments r)
  | v => call_arguments r = v
  end.

(** *** Sessions *)

(** One call of a public method. *)
Inductive call : Type :=
| call_chat (messages : list pydict) (tools : option (list pydict))
    (model : option string) (max_tokens : Z) (temperature : float)
| call_get_default_model
| call_list_models
| call_get_current_model
| call_set_model (model_name : string)
| call_refresh_models.

Inductive answer : Type :=
| ans_response (r : outcome LLMResponse)
| ans_str (r : outcome string)
| ans_list (r : outcome nat)
| ans_bool (r : outcome bool).

Definition invoke (api : endpoint) (loads : string → outcome pyval)
    (c : call) (w : world) : answer * world :=
  match c with
  | call_chat messages tools model max_tokens temperature =>
      let r := chat api loads messages tools model max_tokens temperature w in
      (ans_response r.1, r.2)
  | call_get_default_model =>
      let r := get_default_model w in (ans_str r.1, r.2)
  | call_list_models =>
      let r := list_models api w in (ans_list r.1, r.2)
  | call_get_current_model =>
      let r := get_current_model w in (ans_str r.1, r.2)
  | call_set_model model_name =>
      let r := set_model model_name w in (ans_bool r.1, r.2)
  | call_refresh_models =>
      let r := refresh_models api w in (ans_bool r.1, r.2)
  end.

(** The calls of a caller, one after the other. *)
Fixpoint session (api : endpoint) (loads : string → outcome pyval)
    (cs : list call) (w : world) : list answer * world :=
  match cs with
  | [] => ([], w)
  | c :: cs' =>
      let r := invoke api loads c w in
      let rs := session api loads cs' r.2 in
      (r.1 :: rs.1, rs.2)
  end.

(** No [refresh_models] of the session brings a non-empty listing back. *)
Fixpoint no_repopulation (api : endpoint) (loads : string → outcome pyval)
    (cs : list call) (w : world) : Prop :=
  match cs with
  | [] => True
  | c :: cs' =>
      (c = call_refresh_models → fetched api w = []) ∧
      no_repopulation api loads cs' (invoke api loads c w).2
  end.

(** The catalog is loaded and empty. *)
Definition stuck (w : world) : Prop :=
  wf w ∧ _models_loaded (self w) = true ∧ catalog w = [].

(** ** Endpoints used in the examples *)

(** Nothing listens at the base URL. *)
Definition unreachable : endpoint :=
  {| models_reply := λ _, Raise (Exn "APIConnectionError" "Connection error.");
     chat_reply := λ _, Raise (Exn "APIConnectionError" "Connection error.") |}.

(** A server that lists [ids] and answers every chat request with [reply]. *)
Definition serving (ids : list string) (reply : ChatCompletion) : endpoint :=
  {| models_reply := λ _, Return (Build_Model <$> ids);
     chat_reply := λ _, Return reply |}.

Definition fresh_adapter : world :=
  __init__ "no-key" "http://localhost:8000/v1" "default".

(** ** Data of the examples *)

Definition user_says (text : string) : pydict :=
  {[ "role" := PStr "user"; "content" := PStr text ]}.

(** An assistant turn that only called tools: no content key at all. *)
Definition assistant_turn : pydict := {[ "role" := PStr "assistant" ]}.

(** A reply with no choice in it. *)
Definition empty_reply : ChatCompletion := {| choices := []; resp_usage := None |}.

(** A reply with one choice and none of the optional parts. *)
Definition bare_choice : Choice :=
  {| choice_message := {| msg_content := Some "hello"; msg_tool_calls := None;
                          msg_reasoning_content := None |};
     choice_finish_reason := None |}.

Definition bare_reply : ChatCompletion :=
  {| choices := [bare_choice]; resp_usage := None |}.

(** Two tool calls; the arguments of the second end in a trailing comma. *)
Definition call_add : ToolCall :=
  {| tc_id := "call_1";
     tc_function := {| fn_name := "add"; fn_arguments := PStr "[1, 2]" |} |}.

Definition call_mul : ToolCall :=
  {| tc_id := "call_2";
     tc_function := {| fn_name := "mul"; fn_arguments := PStr "[3, 4,]" |} |}.

Definition tools_choice : Choice :=
  {| choice_message := {| msg_content := None;
                          msg_tool_calls := Some [call_add; call_mul];
                          msg_reasoning_content := None |};
     choice_finish_reason := Some "tool_calls" |}.

Definition tools_reply : ChatCompletion :=
  {| choices := [tools_choice];
     resp_usage := Some {| prompt_tokens := 12; completion_tokens := 7;
                           total_tokens := 19 |} |}.

(** What the repair step makes of the strings of the examples. *)
Definition repair_example (s : string) : outcome pyval :=
  if String.eqb s "[1, 2]" then Return (PList [PInt 1; PInt 2])
  else if String.eqb s "[3, 4,]" then Return (PList [PInt 3; PInt 4])
  else Return (PStr "").

(** An adapter whose catalog was loaded from a server listing two models. *)
Definition loaded_adapter : world :=
  (refresh_models (serving ["gpt-x"; "gpt-y"] bare_reply) fresh_adapter).2.

(** ** Counting what a session does *)

Definition is_listing (r : request) : bool :=
  match r with GET_models => true | POST_chat_completions _ => false end.

Definition is_chat (r : request) : bool :=
  match r with GET_models => false | POST_chat_completions _ => true end.

Fixpoint count_requests (p : request → bool) (trace : list request) : nat :=
  match trace with
  | [] => 0
  | r :: trace' => (if p r then 1 else 0) + count_requests p trace'
  end.

(** The calls of [chat] and of [refresh_models] in a session. *)
Fixpoint chat_calls (cs : list call) : nat :=
  match cs with
  | [] => 0
  | call_chat _ _ _ _ _ :: cs' => S (chat_calls cs')
  | _ :: cs' => chat_calls cs'
  end.

Fixpoint refresh_calls (cs : list call) : nat :=
  match cs with
  | [] => 0
  | call_refresh_models :: cs' => S (refresh_calls cs')
  | _ :: cs' => refresh_calls cs'
  end.

(** 1 when the session calls [list_models] before any [refresh_models]:
    the call that loads an unloaded catalog. *)
Fixpoint lazy_loads (cs : list call) : nat :=
  match cs with
  | [] => 0
  | call_list_models :: _ => 1
  | call_refresh_models :: _ => 0
  | _ :: cs' => lazy_loads cs'
  end.

(** ** More data for the examples *)

(** A server whose listing changes after the first listing request. *)
Definition upgraded : endpoint :=
  {| models_reply := λ trace,
       if Nat.leb (count_requests is_listing trace) 1
       then Return [Build_Model "gpt-x"]
       else Return [Build_Model "gpt-y"];
     chat_reply := λ _, Return bare_reply |}.

(** A repair step that gives up on the trailing comma. *)
Definition repair_strict (s : string) : outcome pyval :=
  if String.eqb s "[1, 2]" then Return (PList [PInt 1; PInt 2])
  else Raise (Exn "ValueError" "cannot repair").

(** A tool call whose arguments the vendor sent as a structured value. *)
Definition call_structured : ToolCall :=
  {| tc_id := "call_3";
     tc_function := {| fn_name := "lookup";
                       fn_arguments := PDict [("city", PStr "Paris")] |} |}.

Definition structured_choice : Choice :=
  {| choice_message := {| msg_content := None;
                          msg_tool_calls := Some [call_structured];
                          msg_reasoning_content := None |};
     choice_finish_reason := Some "tool_calls" |}.

Definition structured_reply : ChatCompletion :=
  {| choices := [structured_choice]; resp_usage := None |}.

(** A reply with two choices, the second carrying the tool calls. *)
Definition two_choice_reply : ChatCompletion :=
  {| choices := [bare_choice; tools_choice]; resp_usage := None |}.

(** A reply whose optional parts are present but empty. *)
Definition blank_choice : Choice :=
  {| choice_message := {| msg_content := Some ""; msg_tool_calls := Some [];
                          msg_reasoning_content := Some "" |};
     choice_finish_reason := Some "" |}.

Definition blank_reply : ChatCompletion :=
  {| choices := [blank_choice]; resp_usage := None |}.

Definition weather_tool : pydict := {[ "type" := PStr "function" ]}.

(** * Properties *)

(** ** Store and monad lemmas *)

Lemma deref_new (h : list (list string)) (xs : list string) :
  deref (length h) (h ++ [xs]) = xs.
Proof.
  unfold deref. rewrite lookup_app_r by lia.
  by rewrite Nat.sub_diag.
Qed.

Lemma deref_old (h : list (list string)) (xs : list string) (l : nat) :
  (l < length h)%nat → deref l (h ++ [xs]) = deref l h.
Proof. intros Hl. unfold deref. by rewrite lookup_app_l. Qed.

Lemma deref_write_other (h : list (list string)) (xs : list string) (l l' : nat) :
  l ≠ l' → deref l' (<[l := xs]> h) = deref l' h.
Proof. intros Hne. unfold deref. by rewrite list_lookup_insert_ne. Qed.

(** Unfolds the monad and the primitive operations on the world. *)
Ltac run :=
  cbv [bind ret raise try_except lift_outcome get_self set_self
       set_current_model set_available_models set_models_loaded
       new_list read_list list_len list_copy logger
       client_models_list client_chat_completions_create];
  cbn [fst snd self heap sent logged
       api_key api_base default_model _current_model _available_models
       _models_loaded with_current_model with_available_models
       with_models_loaded].

(** ** The internal fetch *)

(** A fetch sends one request, allocates one list and never raises. *)
Lemma _fetch_models_run (api : endpoint) (w : world) :
  _fetch_models api w =
    (Return (length (heap w)),
     {| self := self w; heap := heap w ++ [fetched api w];
        sent := sent w ++ [GET_models];
        logged := logged w ++ [fetch_log api w] |}).
Proof.
  unfold _fetch_models, fetched, fetch_log. run.
  destruct (models_reply api (sent w ++ [GET_models])) as [data|e]; [|done].
  unfold deref. rewrite lookup_app_r by lia.
  rewrite Nat.sub_diag. cbn. by rewrite length_fmap.
Qed.

Lemma catalog_reloaded (api : endpoint) (w : world) :
  catalog (reloaded api w) = fetched api w.
Proof. unfold catalog, reloaded. cbn. apply deref_new. Qed.

Lemma wf_reloaded (api : endpoint) (w : world) : wf (reloaded api w).
Proof. unfold wf, reloaded. cbn. rewrite length_app. cbn. lia. Qed.

Lemma _ensure_models_loaded_run (api : endpoint) (w : world) :
  _ensure_models_loaded api w =
    (Return (), if _models_loaded (self w) then w else reloaded api w).
Proof.
  unfold _ensure_models_loaded. run.
  destruct (_models_loaded (self w)) eqn:Hl; cbn [negb]; [done|].
  rewrite _fetch_models_run. done.
Qed.

Lemma refresh_models_run (api : endpoint) (w : world) :
  refresh_models api w = (Return true, reloaded api w).
Proof. unfold refresh_models. run. by rewrite _fetch_models_run. Qed.

Lemma list_models_run (api : endpoint) (w : world) :
  let w1 := if _models_loaded (self w) then w else reloaded api w in
  list_models api w =
    (Return (length (heap w1)),
     {| self := self w1; heap := heap w1 ++ [catalog w1];
        sent := sent w1; logged := logged w1 |}).
Proof.
  unfold list_models. run. rewrite _ensure_models_loaded_run. done.
Qed.

(** ** refresh_models *)

(** On every endpoint, a refresh sends one listing request, points the
    catalog at the list just fetched and marks it loaded. *)
Lemma refresh_models_refetches (api : endpoint) (w : world) :
  let w' := (refresh_models api w).2 in
  sent w' = sent w ++ [GET_models] ∧
  catalog w' = fetched api w ∧
  _models_loaded (self w') = true.
Proof.
  rewrite refresh_models_run. cbn [snd].
  split; [done|]. split; [apply catalog_reloaded | done].
Qed.

(** The handler of [refresh_models] is never entered: [_fetch_models] has
    already absorbed the failure, so no reply makes the method answer
    [False]. *)
Lemma refresh_models_never_false (api : endpoint) (w : world) :
  (refresh_models api w).1 ≠ Return false.
Proof. by rewrite refresh_models_run. Qed.

(** C1, at the failing input.  With an endpoint whose listing request
    fails, [refresh_models] on a newly built adapter answers [True]: the
    catalog becomes the empty list and is marked loaded, and the failure
    is only visible in the log.  The claim expects [False] here. *)
Theorem refresh_models_fetch_failure_reports_true :
  models_reply unreachable [GET_models]
    = Raise (Exn "APIConnectionError" "Connection error.") ∧
  (refresh_models unreachable fresh_adapter).1 = Return true ∧
  catalog (refresh_models unreachable fresh_adapter).2 = [] ∧
  _models_loaded (self (refresh_models unreachable fresh_adapter).2) = true.
Proof. by vm_compute. Qed.

(** ** set_model *)

Lemma set_model_run (model_name : string) (w : world) :
  set_model model_name w =
    let accepted (r : log_record) : outcome bool * world :=
      (Return true,
       {| self := with_current_model model_name (self w); heap := heap w;
          sent := sent w; logged := logged w ++ [r] |}) in
    if _models_loaded (self w) then
      if bool_decide (model_name ∈ catalog w)
      then accepted (INFO_switched model_name)
      else (Return false, w)
    else
      if bool_decide (model_name ≠ "")
      then accepted (INFO_set_unverified model_name)
      else (Return false, w).
Proof.
  unfold set_model, catalog. run.
  destruct (_models_loaded (self w)); repeat case_bool_decide; done.
Qed.

(** C3.  With the catalog loaded, [set_model] accepts exactly the members
    of the catalog, and a refusal leaves the whole world as it was; with
    the catalog not loaded it accepts every non-empty name and refuses only
    the empty one.  An accepted name becomes the current model and nothing
    else of the adapter changes. *)
Theorem set_model_spec (model_name : string) (w : world) :
  let r := (set_model model_name w).1 in
  let w' := (set_model model_name w).2 in
  let switched :=
    r = Return true ∧
    self w' = with_current_model model_name (self w) ∧
    _current_model (self w') = model_name ∧
    heap w' = heap w ∧ sent w' = sent w in
  let refused := r = Return false ∧ w' = w in
  (_models_loaded (self w) = true → model_name ∈ catalog w → switched) ∧
  (_models_loaded (self w) = true → model_name ∉ catalog w → refused) ∧
  (_models_loaded (self w) = false → model_name ≠ "" → switched) ∧
  (_models_loaded (self w) = false → model_name = "" → refused).
Proof.
  cbv zeta. rewrite set_model_run. cbv zeta.
  split; [|split; [|split]]; intros Hl Hn; rewrite Hl.
  - by rewrite bool_decide_eq_true_2.
  - by rewrite bool_decide_eq_false_2.
  - by rewrite bool_decide_eq_true_2.
  - rewrite bool_decide_eq_false_2; [done|]. by intros ?.
Qed.

Lemma set_model_spec_witness :
  (_models_loaded (self loaded_adapter) = true ∧ "gpt-y" ∈ catalog loaded_adapter ∧
   (set_model "gpt-y" loaded_adapter).1 = Return true ∧
   _current_model (self (set_model "gpt-y" loaded_adapter).2) = "gpt-y") ∧
  (("gpt-z" ∉ catalog loaded_adapter) ∧
   (set_model "gpt-z" loaded_adapter).1 = Return false ∧
   (set_model "gpt-z" loaded_adapter).2 = loaded_adapter) ∧
  (_models_loaded (self fresh_adapter) = false ∧ "gpt-x" ≠ "" ∧
   (set_model "gpt-x" fresh_adapter).1 = Return true ∧
   _current_model (self (set_model "gpt-x" fresh_adapter).2) = "gpt-x") ∧
  ((set_model "" fresh_adapter).1 = Return false ∧
   (set_model "" fresh_adapter).2 = fresh_adapter).
Proof.
  assert (Hin : "gpt-y" ∈ catalog loaded_adapter).
  { apply (bool_decide_unpack _). vm_compute. exact I. }
  assert (Hout : "gpt-z" ∉ catalog loaded_adapter).
  { apply (bool_decide_unpack _). vm_compute. exact I. }
  split; [|split; [|split]].
  - destruct (set_model_spec "gpt-y" loaded_adapter) as (H & _).
    destruct (H eq_refl Hin) as (Hr & _ & Hc & _).
    split; [reflexivity|]. split; [exact Hin|]. split; [exact Hr | exact Hc].
  - destruct (set_model_spec "gpt-z" loaded_adapter) as (_ & H & _).
    destruct (H eq_refl Hout) as (Hr & Hw).
    split; [exact Hout|]. split; [exact Hr | exact Hw].
  - destruct (set_model_spec "gpt-x" fresh_adapter) as (_ & _ & H & _).
    assert (Hne : "gpt-x" ≠ "") by discriminate.
    destruct (H eq_refl Hne) as (Hr & _ & Hc & _).
    split; [reflexivity|]. split; [exact Hne|]. split; [exact Hr | exact Hc].
  - destruct (set_model_spec "" fresh_adapter) as (_ & _ & _ & H).
    exact (H eq_refl eq_refl).
Defined.

(** ** list_models *)

(** A write through a reference other than the adapter's own does not
    reach the catalog. *)
Lemma catalog_caller_writes (l : nat) (xs : list string) (w : world) :
  l ≠ _available_models (self w) →
  catalog (caller_writes l xs w) = catalog w.
Proof. intros Hne. unfold catalog, caller_writes. cbn. by apply deref_write_other. Qed.

(** C4.  Two successive calls of [list_models] send one listing request
    when the catalog was not loaded, whatever the endpoint answered, and
    none when it was; the second call never sends.  Each call answers with
    a newly allocated list that holds the catalog, is not the adapter's
    own list and is not the list answered before, so writing to it leaves
    the catalog as it is. *)
Theorem list_models_fetches_once (api : endpoint) (w : world) :
  wf w →
  let w1 := (list_models api w).2 in
  let w2 := (list_models api w1).2 in
  ∃ l1 l2 : nat,
    (list_models api w).1 = Return l1 ∧
    (list_models api w1).1 = Return l2 ∧
    sent w2 = sent w ++ (if _models_loaded (self w) then [] else [GET_models]) ∧
    sent w2 = sent w1 ∧
    catalog w2 = catalog w1 ∧
    deref l1 (heap w1) = catalog w1 ∧
    deref l2 (heap w2) = catalog w2 ∧
    (length (heap w) ≤ l1)%nat ∧ (length (heap w1) ≤ l2)%nat ∧
    l1 ≠ _available_models (self w1) ∧
    l2 ≠ _available_models (self w2) ∧
    (∀ xs, catalog (caller_writes l1 xs w1) = catalog w1) ∧
    (∀ xs, catalog (caller_writes l1 xs w2) = catalog w2) ∧
    (∀ xs, catalog (caller_writes l2 xs w2) = catalog w2).
Proof.
  intros Hwf. cbv zeta.
  rewrite (list_models_run api w). cbv zeta. cbn [fst snd].
  set (w0 := if _models_loaded (self w) then w else reloaded api w).
  assert (Hwf0 : wf w0).
  { subst w0. destruct (_models_loaded (self w)); [done | apply wf_reloaded]. }
  assert (Hl0 : _models_loaded (self w0) = true).
  { subst w0. by destruct (_models_loaded (self w)) eqn:E. }
  assert (Hs0 : sent w0 = sent w ++ (if _models_loaded (self w) then [] else [GET_models])).
  { subst w0. destruct (_models_loaded (self w)); [by rewrite app_nil_r | done]. }
  assert (Hh0 : (length (heap w) ≤ length (heap w0))%nat).
  { subst w0. destruct (_models_loaded (self w)); [done|].
    cbn. rewrite length_app. lia. }
  rewrite list_models_run. cbv zeta. cbn [fst snd self heap sent logged].
  rewrite Hl0. cbn [fst snd self heap sent logged].
  unfold wf in Hwf0.
  set (w1 := {| self := self w0; heap := heap w0 ++ [catalog w0];
                sent := sent w0; logged := logged w0 |}).
  assert (Hc1 : catalog w1 = catalog w0).
  { unfold catalog at 1. cbn. by apply deref_old. }
  set (w2 := {| self := self w0; heap := (heap w0 ++ [catalog w0]) ++ [catalog w1];
                sent := sent w0; logged := logged w0 |}).
  assert (Hc2 : catalog w2 = catalog w0).
  { unfold catalog at 1. cbn. rewrite deref_old; [by apply deref_old|].
    rewrite length_app. lia. }
  exists (length (heap w0)), (length (heap w0 ++ [catalog w0])).
  split; [done|]. split; [done|]. split; [done|]. split; [done|].
  split; [congruence|].
  split; [rewrite Hc1; apply deref_new|].
  split; [etrans; [apply deref_new | congruence]|].
  split; [done|]. split; [done|]. split; [cbn; lia|].
  split; [cbn; rewrite length_app; cbn; lia|].
  split; [|split]; intros xs; apply catalog_caller_writes; cbn;
    rewrite ?length_app; cbn; lia.
Qed.

Lemma list_models_fetches_once_witness :
  wf fresh_adapter ∧
  sent (list_models unreachable (list_models unreachable fresh_adapter).2).2
    = [GET_models] ∧
  sent (list_models (serving ["gpt-x"] bare_reply)
          (list_models (serving ["gpt-x"] bare_reply) fresh_adapter).2).2
    = [GET_models] ∧
  (∀ xs l, (list_models (serving ["gpt-x"] bare_reply) fresh_adapter).1 = Return l →
     catalog (caller_writes l xs
                (list_models (serving ["gpt-x"] bare_reply) fresh_adapter).2)
       = ["gpt-x"]).
Proof.
  assert (Hwf : wf fresh_adapter) by (unfold wf; cbn; lia).
  split; [exact Hwf|].
  split; [|split].
  - destruct (list_models_fetches_once unreachable fresh_adapter Hwf)
      as (l1 & l2 & _ & _ & Hs & _).
    exact Hs.
  - destruct (list_models_fetches_once (serving ["gpt-x"] bare_reply) fresh_adapter Hwf)
      as (l1 & l2 & _ & _ & Hs & _).
    exact Hs.
  - intros xs l Hl.
    destruct (list_models_fetches_once (serving ["gpt-x"] bare_reply) fresh_adapter Hwf)
      as (l1 & l2 & H1 & _ & _ & _ & _ & _ & _ & _ & _ & _ & _ & Hw & _).
    rewrite Hl in H1. injection H1 as ->. exact (Hw xs).
Defined.

(** ** chat *)

(** Parsing reads the reply and writes nothing. *)
Lemma parse_tool_call_world loads (tc : ToolCall) (w : world) :
  (parse_tool_call loads tc w).2 = w.
Proof.
  unfold parse_tool_call. run.
  destruct (fn_arguments (tc_function tc)); try done.
  by destruct (loads s).
Qed.

Lemma parse_tool_calls_world loads (tcs : list ToolCall) (w : world) :
  (parse_tool_calls loads tcs w).2 = w.
Proof.
  induction tcs as [|tc tcs IH]; [done|].
  cbn [parse_tool_calls]. unfold bind at 1.
  pose proof (parse_tool_call_world loads tc w) as Htc.
  destruct (parse_tool_call loads tc w) as [[r|e] w1]; cbn in Htc; subst w1; [|done].
  unfold bind at 1.
  destruct (parse_tool_calls loads tcs w) as [[rs|e] w2]; cbn in IH; by subst w2.
Qed.

Lemma _parse_world loads (response : ChatCompletion) (w : world) :
  (_parse loads response w).2 = w.
Proof.
  unfold _parse. unfold bind at 1.
  destruct (choices response) as [|choice rest]; [done|].
  unfold ret at 1. unfold bind at 1.
  pose proof (parse_tool_calls_world loads
                (default [] (msg_tool_calls (choice_message choice))) w) as Hc.
  destruct (parse_tool_calls _ _ w) as [[rs|e] w1]; cbn in Hc; by subst w1.
Qed.

(** [chat] as one step on the world: the request is appended to what was
    sent, and the answer is the parsed reply or the handler's. *)
Lemma chat_run (api : endpoint) loads (messages : list pydict)
    (tools : option (list pydict)) (model : option string) (max_tokens : Z)
    (temperature : float) (w : world) :
  let kwargs := chat_request (self w) messages tools model max_tokens temperature in
  let w1 := posted kwargs w in
  chat api loads messages tools model max_tokens temperature w =
    (Return match chat_reply api (sent w1) with
            | Raise e => chat_error e
            | Return response =>
                match (_parse loads response w1).1 with
                | Return r => r
                | Raise e => chat_error e
                end
            end, w1).
Proof.
  cbv zeta. unfold chat. run. fold (posted
    (chat_request (self w) messages tools model max_tokens temperature) w).
  set (w1 := posted _ w).
  replace (sent w ++ [POST_chat_completions
     (chat_request (self w) messages tools model max_tokens temperature)])
    with (sent w1) by done.
  destruct (chat_reply api (sent w1)) as [response|e]; [|done].
  pose proof (_parse_world loads response w1) as Hw.
  destruct (_parse loads response w1) as [[r|e] w2]; cbn in Hw |- *; by subst w2.
Qed.

(** [chat] answers on every input and against every endpoint. *)
Lemma chat_returns (api : endpoint) loads (messages : list pydict)
    (tools : option (list pydict)) (model : option string) (max_tokens : Z)
    (temperature : float) (w : world) :
  ∃ resp, (chat api loads messages tools model max_tokens temperature w).1 = Return resp.
Proof. rewrite chat_run. cbv zeta. cbn [fst]. eauto. Qed.

(** C2.  When the request raises [e] (transport, authentication), or the
    reply comes back and parsing it raises [e] (malformed reply, failing
    repair step), [chat] does not raise: it answers a response tagged
    ["error"] whose content is ["Error: "] followed by the text of [e]. *)
Theorem chat_converts_errors (api : endpoint) loads (messages : list pydict)
    (tools : option (list pydict)) (model : option string) (max_tokens : Z)
    (temperature : float) (w : world) (e : exn) :
  let kwargs := chat_request (self w) messages tools model max_tokens temperature in
  (client_chat_completions_create api kwargs w).1 = Raise e ∨
  (∃ response,
     (client_chat_completions_create api kwargs w).1 = Return response ∧
     (_parse loads response (client_chat_completions_create api kwargs w).2).1
       = Raise e) →
  ∃ resp,
    (chat api loads messages tools model max_tokens temperature w).1 = Return resp ∧
    finish_reason resp = "error" ∧
    content resp = Some ("Error: " +:+ exn_str e) ∧
    tool_calls resp = [].
Proof.
  cbv zeta. intros H. rewrite chat_run. cbv zeta. cbn [fst].
  unfold client_chat_completions_create in H. cbn [fst snd] in H.
  change (sent w ++ [POST_chat_completions ?k]) with (sent (posted k w)) in H.
  set (w1 := posted _ w) in *.
  change {| self := self w; heap := heap w; sent := sent w1; logged := logged w |}
    with w1 in H.
  destruct H as [H | (response & H & Hp)]; rewrite H; [by eexists|].
  rewrite Hp. by eexists.
Qed.

Lemma chat_converts_errors_witness :
  (∃ resp,
     (chat unreachable repair_example [user_says "hi"] None None 4096 0.5%float
        fresh_adapter).1 = Return resp ∧
     finish_reason resp = "error" ∧
     content resp = Some "Error: Connection error." ∧
     tool_calls resp = []) ∧
  (∃ resp,
     (chat (serving [] empty_reply) repair_example [user_says "hi"] None None 4096
        0.5%float fresh_adapter).1 = Return resp ∧
     finish_reason resp = "error" ∧
     content resp = Some "Error: list index out of range" ∧
     tool_calls resp = []).
Proof.
  split.
  - apply (chat_converts_errors unreachable repair_example [user_says "hi"] None None
             4096 0.5%float fresh_adapter (Exn "APIConnectionError" "Connection error.")).
    left. reflexivity.
  - apply (chat_converts_errors (serving [] empty_reply) repair_example
             [user_says "hi"] None None 4096 0.5%float fresh_adapter
             (Exn "IndexError" "list index out of range")).
    right. exists empty_reply. split; reflexivity.
Defined.

(** C5.  The one request that [chat] sends carries [max_tokens] raised to
    at least 1: exactly 1 for a bound of zero or less, the bound itself
    otherwise. *)
Theorem chat_clamps_max_tokens (api : endpoint) loads (messages : list pydict)
    (tools : option (list pydict)) (model : option string) (max_tokens : Z)
    (temperature : float) (w : world) :
  ∃ kwargs,
    sent (chat api loads messages tools model max_tokens temperature w).2
      = sent w ++ [POST_chat_completions kwargs] ∧
    ((max_tokens ≤ 0)%Z → kw_max_tokens kwargs = 1) ∧
    ((1 ≤ max_tokens)%Z → kw_max_tokens kwargs = max_tokens) ∧
    (1 ≤ kw_max_tokens kwargs)%Z.
Proof.
  rewrite chat_run. cbv zeta. cbn [snd].
  eexists. split; [reflexivity|]. cbn [chat_request kw_max_tokens]. lia.
Qed.

Lemma chat_clamps_max_tokens_witness :
  (∃ kwargs,
     sent (chat unreachable repair_example [user_says "hi"] None None 0 0.5%float
             fresh_adapter).2 = [POST_chat_completions kwargs] ∧
     kw_max_tokens kwargs = 1) ∧
  (∃ kwargs,
     sent (chat unreachable repair_example [user_says "hi"] None None (-5) 0.5%float
             fresh_adapter).2 = [POST_chat_completions kwargs] ∧
     kw_max_tokens kwargs = 1) ∧
  (∃ kwargs,
     sent (chat unreachable repair_example [user_says "hi"] None None 4096 0.5%float
             fresh_adapter).2 = [POST_chat_completions kwargs] ∧
     kw_max_tokens kwargs = 4096).
Proof.
  split; [|split].
  - destruct (chat_clamps_max_tokens unreachable repair_example [user_says "hi"] None
                None 0 0.5%float fresh_adapter) as (kw & Hs & H0 & _).
    exists kw. split; [exact Hs | apply H0; lia].
  - destruct (chat_clamps_max_tokens unreachable repair_example [user_says "hi"] None
                None (-5) 0.5%float fresh_adapter) as (kw & Hs & H0 & _).
    exists kw. split; [exact Hs | apply H0; lia].
  - destruct (chat_clamps_max_tokens unreachable repair_example [user_says "hi"] None
                None 4096 0.5%float fresh_adapter) as (kw & Hs & _ & H1 & _).
    exists kw. split; [exact Hs | apply H1; lia].
Defined.

(** C8.  [chat] leaves the attributes of the adapter and the store of
    lists as they were, for every argument and every reply; so the current
    model, the catalog and the loaded flag are those of before the call.
    A non-empty [model] argument is the model named in the request. *)
Theorem chat_model_override_is_local (api : endpoint) loads (messages : list pydict)
    (tools : option (list pydict)) (model_name : string) (max_tokens : Z)
    (temperature : float) (w : world) :
  model_name ≠ "" →
  let w' := (chat api loads messages tools (Some model_name) max_tokens temperature w).2 in
  (∃ kwargs,
     sent w' = sent w ++ [POST_chat_completions kwargs] ∧
     kw_model kwargs = model_name) ∧
  _current_model (self w') = _current_model (self w) ∧
  catalog w' = catalog w ∧
  _models_loaded (self w') = _models_loaded (self w) ∧
  self w' = self w ∧ heap w' = heap w.
Proof.
  intros Hne. cbv zeta. rewrite chat_run. cbv zeta. cbn [snd].
  split; [|done].
  eexists. split; [reflexivity|].
  cbn [chat_request kw_model str_or]. by rewrite bool_decide_eq_false_2.
Qed.

Lemma chat_model_override_is_local_witness :
  "gpt-x" ≠ "" ∧
  let w' := (chat (serving ["gpt-x"; "gpt-y"] bare_reply) repair_example
               [user_says "hi"] None (Some "gpt-x") 4096 0.5%float loaded_adapter).2 in
  (∃ kwargs,
     sent w' = sent loaded_adapter ++ [POST_chat_completions kwargs] ∧
     kw_model kwargs = "gpt-x") ∧
  _current_model (self w') = "default" ∧
  catalog w' = ["gpt-x"; "gpt-y"] ∧
  _models_loaded (self w') = true ∧
  self w' = self loaded_adapter ∧ heap w' = heap loaded_adapter.
Proof.
  assert (Hne : "gpt-x" ≠ "") by discriminate.
  split; [exact Hne|].
  exact (chat_model_override_is_local (serving ["gpt-x"; "gpt-y"] bare_reply)
           repair_example [user_says "hi"] None "gpt-x" 4096 0.5%float
           loaded_adapter Hne).
Defined.

(** Without a [model] argument, or with an empty one, the request names
    the current model; the adapter is left unchanged all the same. *)
Lemma chat_default_model (api : endpoint) loads (messages : list pydict)
    (tools : option (list pydict)) (model : option string) (max_tokens : Z)
    (temperature : float) (w : world) :
  model = None ∨ model = Some "" →
  let w' := (chat api loads messages tools model max_tokens temperature w).2 in
  sent w' = sent w ++ [POST_chat_completions
                         (chat_request (self w) messages tools model max_tokens temperature)] ∧
  kw_model (chat_request (self w) messages tools model max_tokens temperature)
    = _current_model (self w) ∧
  self w' = self w ∧ heap w' = heap w.
Proof.
  intros Hm. cbv zeta. rewrite chat_run. cbv zeta. cbn [snd].
  split; [done|]. split; [|done].
  by destruct Hm as [-> | ->].
Qed.

(** C9.  A message of [messages] whose content is missing, null or empty
    is, at the same position of the one request sent, a message whose
    content is the empty string and whose other keys are untouched. *)
Theorem chat_sends_empty_string_content (api : endpoint) loads
    (messages : list pydict) (tools : option (list pydict)) (model : option string)
    (max_tokens : Z) (temperature : float) (w : world) (i : nat) (m : pydict) :
  messages !! i = Some m →
  m !! "content" = None ∨ m !! "content" = Some PNone ∨
    m !! "content" = Some (PStr "") →
  ∃ kwargs m',
    sent (chat api loads messages tools model max_tokens temperature w).2
      = sent w ++ [POST_chat_completions kwargs] ∧
    length (kw_messages kwargs) = length messages ∧
    kw_messages kwargs !! i = Some m' ∧
    m' !! "content" = Some (PStr "") ∧
    (∀ k, k ≠ "content" → m' !! k = m !! k).
Proof.
  intros Hi Hm. rewrite chat_run. cbv zeta. cbn [snd].
  eexists. exists (sanitize_message m).
  split; [reflexivity|]. cbn [chat_request kw_messages].
  unfold _sanitize_empty_content.
  split; [by rewrite length_fmap|].
  split; [by rewrite list_lookup_fmap, Hi|].
  assert (He : content_is_empty m = true).
  { unfold content_is_empty. by destruct Hm as [-> | [-> | ->]]. }
  unfold sanitize_message. rewrite He.
  split; [by rewrite lookup_insert_eq|].
  intros k Hk. by rewrite lookup_insert_ne.
Qed.

Lemma chat_sends_empty_string_content_witness :
  [user_says "hi"; assistant_turn] !! 1%nat = Some assistant_turn ∧
  assistant_turn !! "content" = None ∧
  ∃ kwargs m',
    sent (chat unreachable repair_example [user_says "hi"; assistant_turn] None None
            4096 0.5%float fresh_adapter).2 = [POST_chat_completions kwargs] ∧
    length (kw_messages kwargs) = 2%nat ∧
    kw_messages kwargs !! 1%nat = Some m' ∧
    m' !! "content" = Some (PStr "") ∧
    m' !! "role" = Some (PStr "assistant").
Proof.
  assert (H1 : [user_says "hi"; assistant_turn] !! 1%nat = Some assistant_turn)
    by reflexivity.
  assert (H2 : assistant_turn !! "content" = None) by reflexivity.
  split; [exact H1|]. split; [exact H2|].
  destruct (chat_sends_empty_string_content unreachable repair_example
              [user_says "hi"; assistant_turn] None None 4096 0.5%float fresh_adapter
              1%nat assistant_turn H1 (or_introl H2))
    as (kw & m' & Hs & Hlen & Hm & Hc & Hk).
  exists kw, m'. split; [exact Hs|]. split; [exact Hlen|]. split; [exact Hm|].
  split; [exact Hc|].
  rewrite Hk by discriminate. reflexivity.
Defined.

(** ** Parsing the reply *)

Lemma parse_tool_call_returns loads (tc : ToolCall) (w : world) :
  repair_returns loads tc →
  ∃ r, parse_tool_call loads tc w = (Return r, w) ∧ parsed_from loads tc r.
Proof.
  intros Hr. unfold parse_tool_call, parsed_from, repair_returns in *. run.
  destruct (fn_arguments (tc_function tc)) as [| | | |s| |] eqn:Ha;
    try (eexists; split; [reflexivity|]; cbn; by rewrite ?Ha).
  destruct (Hr s eq_refl) as [v Hv]. rewrite Hv.
  eexists; split; [reflexivity|]. cbn. done.
Qed.

Lemma parse_tool_calls_returns loads (tcs : list ToolCall) (w : world) :
  Forall (repair_returns loads) tcs →
  ∃ rs, parse_tool_calls loads tcs w = (Return rs, w) ∧
        Forall2 (parsed_from loads) tcs rs.
Proof.
  induction 1 as [|tc tcs Htc _ IH].
  - exists []. split; [done | constructor].
  - destruct (parse_tool_call_returns loads tc w Htc) as (r & Hr & Hpr).
    destruct IH as (rs & Hrs & Hprs).
    exists (r :: rs). split; [|by constructor].
    cbn [parse_tool_calls]. unfold bind at 1. rewrite Hr.
    unfold bind at 1. by rewrite Hrs.
Qed.

(** A reply with a first choice, on whose tool calls the repair step
    answers, parses to a response and does not raise. *)
Lemma _parse_returns loads (response : ChatCompletion) (choice : Choice)
    (rest : list Choice) (w : world) :
  choices response = choice :: rest →
  Forall (repair_returns loads) (default [] (msg_tool_calls (choice_message choice))) →
  ∃ rs,
    Forall2 (parsed_from loads) (default [] (msg_tool_calls (choice_message choice))) rs ∧
    _parse loads response w =
      (Return {| content := msg_content (choice_message choice);
                 tool_calls := rs;
                 finish_reason := str_or (choice_finish_reason choice) "stop";
                 usage := match resp_usage response with
                          | Some u => usage_dict u
                          | None => ∅
                          end;
                 reasoning_content :=
                   str_or_None (msg_reasoning_content (choice_message choice)) |},
       w).
Proof.
  intros Hc Hr.
  destruct (parse_tool_calls_returns loads _ w Hr) as (rs & Hrs & Hprs).
  exists rs. split; [done|].
  unfold _parse. rewrite Hc. unfold bind at 1. unfold ret at 1.
  unfold bind at 1. by rewrite Hrs.
Qed.

(** C6.  When the endpoint answers the request with a reply that has a
    first choice (and the repair step answers on its tool calls), [chat]
    returns a response in which a missing finish reason reads ["stop"], a
    missing usage object gives the empty mapping and a missing reasoning
    trace stays null; what the vendor did supply is passed on. *)
Theorem chat_parse_defaults (api : endpoint) loads (messages : list pydict)
    (tools : option (list pydict)) (model : option string) (max_tokens : Z)
    (temperature : float) (w : world)
    (response : ChatCompletion) (choice : Choice) (rest : list Choice) :
  let kwargs := chat_request (self w) messages tools model max_tokens temperature in
  chat_reply api (sent w ++ [POST_chat_completions kwargs]) = Return response →
  choices response = choice :: rest →
  Forall (repair_returns loads) (default [] (msg_tool_calls (choice_message choice))) →
  ∃ resp,
    (chat api loads messages tools model max_tokens temperature w).1 = Return resp ∧
    content resp = msg_content (choice_message choice) ∧
    (choice_finish_reason choice = None → finish_reason resp = "stop") ∧
    (∀ s, choice_finish_reason choice = Some s → s ≠ "" → finish_reason resp = s) ∧
    (resp_usage response = None → usage resp = ∅) ∧
    (∀ u, resp_usage response = Some u →
          usage resp !! "prompt_tokens" = Some (prompt_tokens u) ∧
          usage resp !! "completion_tokens" = Some (completion_tokens u) ∧
          usage resp !! "total_tokens" = Some (total_tokens u)) ∧
    (msg_reasoning_content (choice_message choice) = None →
       reasoning_content resp = None) ∧
    (∀ s, msg_reasoning_content (choice_message choice) = Some s → s ≠ "" →
          reasoning_content resp = Some s).
Proof.
  cbv zeta. intros Hreply Hc Hr. rewrite chat_run. cbv zeta. cbn [fst].
  unfold posted at 1. cbn [sent]. rewrite Hreply.
  destruct (_parse_returns loads response choice rest
              (posted (chat_request (self w) messages tools model max_tokens temperature) w)
              Hc Hr) as (rs & _ & Hp).
  rewrite Hp. cbn [fst]. eexists. split; [reflexivity|]. cbn.
  split; [done|].
  split; [by intros ->|].
  split; [intros s -> Hs; cbn; by rewrite bool_decide_eq_false_2|].
  split; [by intros ->|].
  split; [by intros u ->|].
  split; [by intros ->|].
  intros s -> Hs. cbn. by rewrite bool_decide_eq_false_2.
Qed.

Lemma chat_parse_defaults_witness :
  ∃ resp,
    (chat (serving [] bare_reply) repair_example [user_says "hi"] None None 4096
       0.5%float fresh_adapter).1 = Return resp ∧
    content resp = Some "hello" ∧
    finish_reason resp = "stop" ∧
    usage resp = ∅ ∧
    reasoning_content resp = None.
Proof.
  destruct (chat_parse_defaults (serving [] bare_reply) repair_example
              [user_says "hi"] None None 4096 0.5%float fresh_adapter
              bare_reply bare_choice [])
    as (resp & Hr & Hc & Hf & _ & Hu & _ & Hrc & _).
  - reflexivity.
  - reflexivity.
  - constructor.
  - exists resp. split; [exact Hr|]. split; [exact Hc|].
    split; [apply Hf; reflexivity|]. split; [apply Hu; reflexivity|].
    apply Hrc; reflexivity.
Defined.

Lemma parsed_from_strings loads (tcs : list ToolCall) (rs : list ToolCallRequest) :
  Forall (λ tc, ∃ s v, fn_arguments (tc_function tc) = PStr s ∧ loads s = Return v) tcs →
  Forall2 (parsed_from loads) tcs rs →
  Forall2 (λ tc r,
             call_id r = tc_id tc ∧
             call_name r = fn_name (tc_function tc) ∧
             ∃ s, fn_arguments (tc_function tc) = PStr s ∧
                  loads s = Return (call_arguments r))
          tcs rs.
Proof.
  intros Hargs Hprs. revert Hargs.
  induction Hprs as [|tc r tcs' rs' Hh Ht IH]; intros Hargs; [constructor|].
  inversion Hargs as [|? ? (s & v & Hs & Hv) Hargs']; subst.
  constructor; [|by apply IH].
  destruct Hh as (Hid & Hname & Hval). rewrite Hs in Hval.
  split; [done|]. split; [done|]. eauto.
Qed.

(** C7.  When the endpoint answers with a reply whose first choice carries
    the tool calls [tcs], each with a string for arguments on which the
    repair step answers, [chat] returns a response with as many
    [ToolCallRequest]s, in the same order, each with the identifier and
    name of its tool call and, for arguments, the value the repair step
    made of the string.  Nothing is asked of the string itself: it need not
    be well-formed JSON. *)
Theorem chat_parses_tool_calls (api : endpoint) loads (messages : list pydict)
    (tools : option (list pydict)) (model : option string) (max_tokens : Z)
    (temperature : float) (w : world)
    (response : ChatCompletion) (choice : Choice) (rest : list Choice)
    (tcs : list ToolCall) :
  let kwargs := chat_request (self w) messages tools model max_tokens temperature in
  chat_reply api (sent w ++ [POST_chat_completions kwargs]) = Return response →
  choices response = choice :: rest →
  msg_tool_calls (choice_message choice) = Some tcs →
  Forall (λ tc, ∃ s v, fn_arguments (tc_function tc) = PStr s ∧ loads s = Return v) tcs →
  ∃ resp,
    (chat api loads messages tools model max_tokens temperature w).1 = Return resp ∧
    length (tool_calls resp) = length tcs ∧
    Forall2 (λ tc r,
               call_id r = tc_id tc ∧
               call_name r = fn_name (tc_function tc) ∧
               ∃ s, fn_arguments (tc_function tc) = PStr s ∧
                    loads s = Return (call_arguments r))
            tcs (tool_calls resp).
Proof.
  cbv zeta. intros Hreply Hc Htcs Hargs. rewrite chat_run. cbv zeta. cbn [fst].
  unfold posted at 1. cbn [sent]. rewrite Hreply.
  assert (Hr : Forall (repair_returns loads)
                 (default [] (msg_tool_calls (choice_message choice)))).
  { rewrite Htcs. cbn. eapply Forall_impl; [exact Hargs|].
    intros tc (s & v & Hs & Hv) s' Hs'. rewrite Hs in Hs'.
    injection Hs' as <-. eauto. }
  destruct (_parse_returns loads response choice rest
              (posted (chat_request (self w) messages tools model max_tokens temperature) w)
              Hc Hr) as (rs & Hprs & Hp).
  rewrite Hp. cbn [fst]. eexists. split; [reflexivity|]. cbn [tool_calls].
  rewrite Htcs in Hprs. cbn in Hprs.
  split; [symmetry; by eapply Forall2_length|].
  by apply parsed_from_strings.
Qed.

Lemma chat_parses_tool_calls_witness :
  ∃ resp,
    (chat (serving [] tools_reply) repair_example [user_says "hi"] None None 4096
       0.5%float fresh_adapter).1 = Return resp ∧
    length (tool_calls resp) = 2%nat ∧
    Forall2 (λ tc r,
               call_id r = tc_id tc ∧
               call_name r = fn_name (tc_function tc) ∧
               ∃ s, fn_arguments (tc_function tc) = PStr s ∧
                    repair_example s = Return (call_arguments r))
            [call_add; call_mul] (tool_calls resp).
Proof.
  apply (chat_parses_tool_calls (serving [] tools_reply) repair_example
           [user_says "hi"] None None 4096 0.5%float fresh_adapter
           tools_reply tools_choice [] [call_add; call_mul]).
  - reflexivity.
  - reflexivity.
  - reflexivity.
  - constructor; [|constructor; [|constructor]].
    + exists "[1, 2]", (PList [PInt 1; PInt 2]). split; reflexivity.
    + exists "[3, 4,]", (PList [PInt 3; PInt 4]). split; reflexivity.
Defined.

(** ** Sessions *)

Lemma invoke_keeps_loaded (api : endpoint) loads (c : call) (w : world) :
  _models_loaded (self w) = true →
  _models_loaded (self (invoke api loads c w).2) = true.
Proof.
  intros Hl. destruct c; cbn [invoke snd].
  - by rewrite chat_run.
  - done.
  - rewrite list_models_run. cbv zeta. cbn. by rewrite Hl.
  - done.
  - rewrite set_model_run. cbv zeta. rewrite Hl.
    by case_bool_decide.
  - by rewrite refresh_models_run.
Qed.

Lemma session_keeps_loaded (api : endpoint) loads (cs : list call) (w : world) :
  _models_loaded (self w) = true →
  _models_loaded (self (session api loads cs w).2) = true.
Proof.
  revert w. induction cs as [|c cs IH]; intros w Hl; [done|].
  cbn [session snd]. apply IH. by apply invoke_keeps_loaded.
Qed.

Lemma invoke_keeps_wf (api : endpoint) loads (c : call) (w : world) :
  wf w → wf (invoke api loads c w).2.
Proof.
  intros Hwf. destruct c; cbn [invoke snd].
  - by rewrite chat_run.
  - done.
  - rewrite list_models_run. cbv zeta. cbn [snd].
    assert (wf (if _models_loaded (self w) then w else reloaded api w)) as Hwf'.
    { destruct (_models_loaded (self w)); [done | apply wf_reloaded]. }
    unfold wf in *. cbn. rewrite length_app. cbn. lia.
  - done.
  - rewrite set_model_run. cbv zeta.
    destruct (_models_loaded (self w)); by case_bool_decide.
  - rewrite refresh_models_run. apply wf_reloaded.
Qed.

Lemma invoke_keeps_stuck (api : endpoint) loads (c : call) (w : world) :
  stuck w →
  (c = call_refresh_models → fetched api w = []) →
  stuck (invoke api loads c w).2.
Proof.
  intros (Hwf & Hl & Hc) Hq.
  split; [by apply invoke_keeps_wf|]. split; [by apply invoke_keeps_loaded|].
  destruct c; cbn [invoke snd].
  - by rewrite chat_run.
  - done.
  - rewrite list_models_run. cbv zeta. rewrite Hl. cbn [snd].
    unfold catalog at 1. cbn. rewrite deref_old; done.
  - done.
  - rewrite set_model_run. cbv zeta. rewrite Hl, Hc.
    rewrite bool_decide_eq_false_2; [done|]. apply not_elem_of_nil.
  - rewrite refresh_models_run. cbn [snd]. rewrite catalog_reloaded. by apply Hq.
Qed.

Lemma session_keeps_stuck (api : endpoint) loads (cs : list call) (w : world) :
  stuck w → no_repopulation api loads cs w → stuck (session api loads cs w).2.
Proof.
  revert w. induction cs as [|c cs IH]; intros w Hs Hq; [done|].
  destruct Hq as [Hc Hq]. cbn [session snd]. apply IH; [|done].
  by apply invoke_keeps_stuck.
Qed.

Lemma set_model_stuck (model_name : string) (w : world) :
  stuck w → set_model model_name w = (Return false, w).
Proof.
  intros (_ & Hl & Hc). rewrite set_model_run. cbv zeta. rewrite Hl, Hc.
  rewrite bool_decide_eq_false_2; [done|]. apply not_elem_of_nil.
Qed.

(** A refresh that brings a listing back makes its names acceptable. *)
Lemma refresh_models_repopulates (api : endpoint) (model_name : string) (w : world) :
  model_name ∈ fetched api w →
  (set_model model_name (refresh_models api w).2).1 = Return true.
Proof.
  intros Hin. rewrite refresh_models_run. cbn [snd].
  rewrite set_model_run. cbv zeta. cbn [reloaded self _models_loaded with_models_loaded].
  rewrite catalog_reloaded. by rewrite bool_decide_eq_true_2.
Qed.

(** C10.  No call resets the loaded flag.  After a first [list_models]
    whose fetch failed the catalog is empty and marked loaded; it stays so
    through every session in which no refresh brings a non-empty listing
    back, and [set_model] then refuses every name and changes nothing.  A
    refresh that does bring a listing back makes its names acceptable
    again. *)
Theorem failed_first_load_blocks_set_model (api : endpoint) loads (w : world)
    (e : exn) (cs : list call) (model_name : string) :
  _models_loaded (self w) = false →
  models_reply api (sent w ++ [GET_models]) = Raise e →
  let w1 := (list_models api w).2 in
  no_repopulation api loads cs w1 →
  let w2 := (session api loads cs w1).2 in
  (∀ cs' w', _models_loaded (self w') = true →
             _models_loaded (self (session api loads cs' w').2) = true) ∧
  (catalog w1 = [] ∧ _models_loaded (self w1) = true) ∧
  (catalog w2 = [] ∧ _models_loaded (self w2) = true) ∧
  set_model model_name w2 = (Return false, w2) ∧
  (∀ w' name, name ∈ fetched api w' →
              (set_model name (refresh_models api w').2).1 = Return true).
Proof.
  intros Hl He. cbv zeta.
  assert (Hs1 : stuck (list_models api w).2).
  { rewrite list_models_run. cbv zeta. rewrite Hl. cbn [snd].
    split; [|split].
    - pose proof (wf_reloaded api w) as Hwf. unfold wf in *. cbn.
      cbn in Hwf. rewrite length_app. cbn. lia.
    - done.
    - unfold catalog at 1. cbn [self heap].
      rewrite deref_old by apply wf_reloaded.
      fold (catalog (reloaded api w)). rewrite catalog_reloaded.
      unfold fetched. by rewrite He. }
  intros Hq.
  pose proof (session_keeps_stuck api loads cs _ Hs1 Hq) as Hs2.
  split; [intros cs' w'; apply session_keeps_loaded|].
  split; [by destruct Hs1 as (_ & ? & ?)|].
  split; [by destruct Hs2 as (_ & ? & ?)|].
  split; [by apply set_model_stuck|].
  intros w' name. apply refresh_models_repopulates.
Qed.

Lemma failed_first_load_blocks_set_model_witness :
  let cs := [call_set_model "gpt-x"; call_list_models; call_refresh_models;
             call_chat [user_says "hi"] None (Some "gpt-x") 4096 0.5%float] in
  let w1 := (list_models unreachable fresh_adapter).2 in
  let w2 := (session unreachable repair_example cs w1).2 in
  _models_loaded (self fresh_adapter) = false ∧
  no_repopulation unreachable repair_example cs w1 ∧
  (catalog w1 = [] ∧ _models_loaded (self w1) = true) ∧
  (catalog w2 = [] ∧ _models_loaded (self w2) = true) ∧
  set_model "gpt-x" w2 = (Return false, w2).
Proof.
  cbv zeta.
  assert (Hq : no_repopulation unreachable repair_example
                 [call_set_model "gpt-x"; call_list_models; call_refresh_models;
                  call_chat [user_says "hi"] None (Some "gpt-x") 4096 0.5%float]
                 (list_models unreachable fresh_adapter).2).
  { cbn [no_repopulation]. repeat split; intros _; reflexivity. }
  split; [reflexivity|]. split; [exact Hq|].
  destruct (failed_first_load_blocks_set_model unreachable repair_example fresh_adapter
              (Exn "APIConnectionError" "Connection error.")
              [call_set_model "gpt-x"; call_list_models; call_refresh_models;
               call_chat [user_says "hi"] None (Some "gpt-x") 4096 0.5%float]
              "gpt-x" eq_refl eq_refl Hq)
    as (_ & H1 & H2 & H3 & _).
  split; [exact H1|]. split; [exact H2 | exact H3].
Defined.

(** * Further properties of the adapter *)

(** ** What one call leaves alone *)

Lemma set_model_frame (model_name : string) (w : world) :
  heap (set_model model_name w).2 = heap w ∧
  sent (set_model model_name w).2 = sent w ∧
  (self (set_model model_name w).2 = self w ∨
   self (set_model model_name w).2 = with_current_model model_name (self w)).
Proof.
  rewrite set_model_run. cbv zeta.
  destruct (_models_loaded (self w)); case_bool_decide; cbn; auto.
Qed.

Lemma invoke_keeps_configuration (api : endpoint) loads (c : call) (w : world) :
  let w' := (invoke api loads c w).2 in
  api_key (self w') = api_key (self w) ∧
  api_base (self w') = api_base (self w) ∧
  default_model (self w') = default_model (self w).
Proof.
  cbv zeta. destruct c; cbn [invoke snd].
  - by rewrite chat_run.
  - done.
  - rewrite list_models_run. cbv zeta. cbn [snd self].
    by destruct (_models_loaded (self w)).
  - done.
  - destruct (set_model_frame model_name w) as (_ & _ & [-> | ->]); done.
  - by rewrite refresh_models_run.
Qed.

(** X1.  The key, the base URL and the default model given at
    construction are never written again: after every session they are
    what they were, and [get_default_model] answers the construction-time
    default without touching the world. *)
Theorem configuration_is_immutable (api : endpoint) loads (cs : list call) (w : world) :
  let w' := (session api loads cs w).2 in
  api_key (self w') = api_key (self w) ∧
  api_base (self w') = api_base (self w) ∧
  default_model (self w') = default_model (self w) ∧
  get_default_model w' = (Return (default_model (self w)), w').
Proof.
  cbv zeta.
  assert (H : api_key (self (session api loads cs w).2) = api_key (self w) ∧
              api_base (self (session api loads cs w).2) = api_base (self w) ∧
              default_model (self (session api loads cs w).2) = default_model (self w)).
  { revert w. induction cs as [|c cs IH]; intros w; [done|].
    cbn [session snd].
    destruct (IH (invoke api loads c w).2) as (-> & -> & ->).
    apply invoke_keeps_configuration. }
  destruct H as (Hk & Hb & Hd). split; [done|]. split; [done|]. split; [done|].
  unfold get_default_model. run. by rewrite Hd.
Qed.

(** X2.  [set_model] answers [True] or [False] and nothing else.  After
    [True], [get_current_model] answers the name just set; after [False]
    it answers what it answered before. *)
Theorem set_model_then_get_current_model (model_name : string) (w : world) :
  let r := set_model model_name w in
  (r.1 = Return true ∨ r.1 = Return false) ∧
  (r.1 = Return true → get_current_model r.2 = (Return model_name, r.2)) ∧
  (r.1 = Return false →
     (get_current_model r.2).1 = (get_current_model w).1 ∧ r.2 = w).
Proof.
  cbv zeta. rewrite set_model_run. cbv zeta.
  unfold get_current_model. run.
  destruct (_models_loaded (self w)); case_bool_decide; cbn;
    (split; [auto|]); split; intros; done.
Qed.

Lemma set_model_then_get_current_model_witness :
  get_current_model (set_model "gpt-x" fresh_adapter).2
    = (Return "gpt-x", (set_model "gpt-x" fresh_adapter).2) ∧
  (get_current_model (set_model "gpt-z" loaded_adapter).2).1 = Return "default".
Proof.
  split.
  - destruct (set_model_then_get_current_model "gpt-x" fresh_adapter) as (_ & H & _).
    apply H. reflexivity.
  - destruct (set_model_then_get_current_model "gpt-z" loaded_adapter) as (_ & _ & H).
    destruct (H eq_refl) as (Hg & _). exact Hg.
Defined.

(** ** Requests sent by a session *)

Lemma count_requests_snoc (p : request → bool) (trace : list request) (r : request) :
  count_requests p (trace ++ [r]) = (count_requests p trace + if p r then 1 else 0)%nat.
Proof.
  induction trace as [|r' trace IH]; cbn; [lia|]. rewrite IH. lia.
Qed.

Lemma invoke_requests (api : endpoint) loads (c : call) (w : world) :
  let w' := (invoke api loads c w).2 in
  count_requests is_chat (sent w') =
    (count_requests is_chat (sent w)
     + match c with call_chat _ _ _ _ _ => 1 | _ => 0 end)%nat ∧
  count_requests is_listing (sent w') =
    (count_requests is_listing (sent w)
     + match c with
       | call_refresh_models => 1
       | call_list_models => if _models_loaded (self w) then 0 else 1
       | _ => 0
       end)%nat ∧
  _models_loaded (self w') =
    match c with
    | call_refresh_models | call_list_models => true
    | _ => _models_loaded (self w)
    end.
Proof.
  cbv zeta. destruct c; cbn [invoke snd].
  - rewrite chat_run. cbv zeta. cbn [snd posted sent self].
    rewrite !count_requests_snoc. cbn. split; [lia|]. split; [lia|done].
  - cbn. split; [lia|]. split; [lia|done].
  - rewrite list_models_run. cbv zeta. cbn [snd sent self].
    destruct (_models_loaded (self w)) eqn:Hl.
    + rewrite Hl. split; [lia|]. split; [lia|done].
    + cbn [reloaded sent self with_models_loaded _models_loaded].
      rewrite !count_requests_snoc. cbn. split; [lia|]. split; [lia|done].
  - cbn. split; [lia|]. split; [lia|done].
  - destruct (set_model_frame model_name w) as (_ & -> & Hs).
    split; [lia|]. split; [lia|]. by destruct Hs as [-> | ->].
  - rewrite refresh_models_run. cbn [snd reloaded sent self with_models_loaded
                                       _models_loaded].
    rewrite !count_requests_snoc. cbn. split; [lia|]. split; [lia|done].
Qed.

(** X3.  A session sends one chat request per call of [chat], one listing
    request per call of [refresh_models], and one more listing request
    only if the catalog was not loaded at the start and [list_models] is
    called before any [refresh_models]. *)
Theorem session_request_accounting (api : endpoint) loads (cs : list call) (w : world) :
  let w' := (session api loads cs w).2 in
  count_requests is_chat (sent w') =
    (count_requests is_chat (sent w) + chat_calls cs)%nat ∧
  count_requests is_listing (sent w') =
    (count_requests is_listing (sent w) + refresh_calls cs
     + if _models_loaded (self w) then 0 else lazy_loads cs)%nat.
Proof.
  cbv zeta. revert w. induction cs as [|c cs IH]; intros w.
  - cbn. destruct (_models_loaded (self w)); lia.
  - cbn [session snd].
    destruct (IH (invoke api loads c w).2) as (-> & ->).
    destruct (invoke_requests api loads c w) as (-> & -> & ->).
    destruct c; cbn [chat_calls refresh_calls lazy_loads];
      destruct (_models_loaded (self w)); lia.
Qed.

(** ** Who writes the current model *)

Lemma invoke_current_model (api : endpoint) loads (c : call) (w : world) :
  _current_model (self (invoke api loads c w).2) = _current_model (self w) ∨
  c = call_set_model (_current_model (self (invoke api loads c w).2)).
Proof.
  destruct c; cbn [invoke snd].
  - left. by rewrite chat_run.
  - by left.
  - left. rewrite list_models_run. cbv zeta. cbn [snd self].
    by destruct (_models_loaded (self w)).
  - by left.
  - destruct (set_model_frame model_name w) as (_ & _ & [-> | ->]); [by left|].
    by right.
  - left. by rewrite refresh_models_run.
Qed.

(** X4.  Only [set_model] writes the current model: after a session it is
    the model of before, or a name that the session passed to
    [set_model].  Loading or refreshing the catalog never changes it, even
    when the new catalog does not list it. *)
Theorem current_model_provenance (api : endpoint) loads (cs : list call) (w : world) :
  let w' := (session api loads cs w).2 in
  _current_model (self w') = _current_model (self w) ∨
  call_set_model (_current_model (self w')) ∈ cs.
Proof.
  cbv zeta. revert w. induction cs as [|c cs IH]; intros w; [by left|].
  cbn [session snd].
  destruct (IH (invoke api loads c w).2) as [Heq | Hin].
  - rewrite Heq.
    destruct (invoke_current_model api loads c w) as [-> | Hc]; [by left|].
    right. rewrite Hc at 2. apply list_elem_of_here.
  - right. by apply list_elem_of_further.
Qed.

(** ** The shape of the chat request *)

(** X5.  The one request of [chat] carries the temperature it was given.
    A tool list with at least one item is forwarded as it is, together
    with [tool_choice] set to ["auto"]; without a tool list, or with an
    empty one, the request has neither key. *)
Theorem chat_forwards_tools (api : endpoint) loads (messages : list pydict)
    (tools : option (list pydict)) (model : option string) (max_tokens : Z)
    (temperature : float) (w : world) :
  ∃ kwargs,
    sent (chat api loads messages tools model max_tokens temperature w).2
      = sent w ++ [POST_chat_completions kwargs] ∧
    kw_temperature kwargs = temperature ∧
    (∀ t ts, tools = Some (t :: ts) →
       kw_tools kwargs = Some (t :: ts) ∧ kw_tool_choice kwargs = Some "auto") ∧
    (tools = None ∨ tools = Some [] →
       kw_tools kwargs = None ∧ kw_tool_choice kwargs = None).
Proof.
  rewrite chat_run. cbv zeta. cbn [snd posted sent].
  eexists. split; [reflexivity|].
  cbn [chat_request kw_temperature kw_tools kw_tool_choice].
  split; [done|]. split.
  - by intros t ts ->.
  - by intros [-> | ->].
Qed.

Lemma chat_forwards_tools_witness :
  (∃ kwargs,
     sent (chat unreachable repair_example [user_says "hi"] (Some [weather_tool]) None
             4096 0.5%float fresh_adapter).2 = [POST_chat_completions kwargs] ∧
     kw_tools kwargs = Some [weather_tool] ∧ kw_tool_choice kwargs = Some "auto") ∧
  (∃ kwargs,
     sent (chat unreachable repair_example [user_says "hi"] (Some []) None
             4096 0.5%float fresh_adapter).2 = [POST_chat_completions kwargs] ∧
     kw_tools kwargs = None ∧ kw_tool_choice kwargs = None).
Proof.
  split.
  - destruct (chat_forwards_tools unreachable repair_example [user_says "hi"]
                (Some [weather_tool]) None 4096 0.5%float fresh_adapter)
      as (kw & Hs & _ & H & _).
    exists kw. split; [exact Hs|]. exact (H weather_tool [] eq_refl).
  - destruct (chat_forwards_tools unreachable repair_example [user_says "hi"]
                (Some []) None 4096 0.5%float fresh_adapter)
      as (kw & Hs & _ & _ & H).
    exists kw. split; [exact Hs|]. exact (H (or_intror eq_refl)).
Defined.

(** ** What list_models hands out *)

(** X6.  On an adapter whose catalog is not loaded, [list_models] does
    not raise and answers a list holding the identifiers of the server's
    listing, in the server's order and with its repetitions, or the empty
    list when the listing request failed; the catalog holds the same. *)
Theorem first_list_models_answers_listing (api : endpoint) (w : world) :
  _models_loaded (self w) = false →
  let w1 := (list_models api w).2 in
  let listing := match models_reply api (sent w ++ [GET_models]) with
                 | Return data => model_id <$> data
                 | Raise _ => []
                 end in
  ∃ l, (list_models api w).1 = Return l ∧
       deref l (heap w1) = listing ∧
       catalog w1 = listing ∧
       _models_loaded (self w1) = true.
Proof.
  intros Hl. cbv zeta. rewrite list_models_run. cbv zeta. rewrite Hl.
  cbn [fst snd self heap]. eexists. split; [reflexivity|].
  pose proof (catalog_reloaded api w) as Hc. unfold fetched in Hc.
  pose proof (wf_reloaded api w) as Hwf.
  split; [rewrite <- Hc; apply deref_new|]. split; [|done].
  rewrite <- Hc. unfold catalog at 1. cbn [self heap]. by apply deref_old.
Qed.

Lemma first_list_models_answers_listing_witness :
  _models_loaded (self fresh_adapter) = false ∧
  (∃ l, (list_models (serving ["b"; "a"; "b"] bare_reply) fresh_adapter).1 = Return l ∧
        deref l (heap (list_models (serving ["b"; "a"; "b"] bare_reply)
                         fresh_adapter).2) = ["b"; "a"; "b"]) ∧
  (∃ l, (list_models unreachable fresh_adapter).1 = Return l ∧
        deref l (heap (list_models unreachable fresh_adapter).2) = []).
Proof.
  split; [reflexivity|]. split.
  - destruct (first_list_models_answers_listing (serving ["b"; "a"; "b"] bare_reply)
                fresh_adapter eq_refl) as (l & Hr & Hd & _).
    exists l. split; [exact Hr | exact Hd].
  - destruct (first_list_models_answers_listing unreachable fresh_adapter eq_refl)
      as (l & Hr & Hd & _).
    exists l. split; [exact Hr | exact Hd].
Defined.

(** No call writes into a list that exists: the store only grows. *)
Lemma invoke_extends_heap (api : endpoint) loads (c : call) (w : world) :
  heap w `prefix_of` heap (invoke api loads c w).2.
Proof.
  destruct c; cbn [invoke snd].
  - by rewrite chat_run.
  - done.
  - rewrite list_models_run. cbv zeta. cbn [snd heap].
    destruct (_models_loaded (self w)).
    + by apply prefix_app_r.
    + cbn [reloaded heap]. apply prefix_app_r. by apply prefix_app_r.
  - done.
  - by destruct (set_model_frame model_name w) as (-> & _).
  - rewrite refresh_models_run. cbn [snd reloaded heap]. by apply prefix_app_r.
Qed.

Lemma session_extends_heap (api : endpoint) loads (cs : list call) (w : world) :
  heap w `prefix_of` heap (session api loads cs w).2.
Proof.
  revert w. induction cs as [|c cs IH]; intros w; [done|].
  cbn [session snd]. etrans; [apply invoke_extends_heap | apply IH].
Qed.

Lemma deref_prefix (h h' : list (list string)) (l : nat) :
  h `prefix_of` h' → (l < length h)%nat → deref l h' = deref l h.
Proof.
  intros [ext ->] Hl. unfold deref. by rewrite lookup_app_l.
Qed.

Lemma list_models_answer (api : endpoint) (w : world) (l : nat) :
  wf w →
  (list_models api w).1 = Return l →
  (l < length (heap (list_models api w).2))%nat ∧
  deref l (heap (list_models api w).2) = catalog (list_models api w).2.
Proof.
  intros Hwf. rewrite list_models_run. cbv zeta.
  set (w0 := if _models_loaded (self w) then w else reloaded api w).
  assert (Hwf0 : wf w0).
  { subst w0. destruct (_models_loaded (self w)); [done | apply wf_reloaded]. }
  cbn [fst snd heap]. intros [= <-].
  split; [rewrite length_app; cbn; lia|].
  rewrite deref_new. unfold catalog at 2. cbn [self heap].
  symmetry. by apply deref_old.
Qed.

(** X7.  The list that [list_models] answered is a snapshot: whatever
    the caller asks of the adapter afterwards, a refresh that replaces the
    catalog included, that list still holds the catalog of the moment it
    was handed out. *)
Theorem list_models_answer_is_a_snapshot (api : endpoint) loads (w : world)
    (l : nat) (cs : list call) :
  wf w →
  (list_models api w).1 = Return l →
  let w1 := (list_models api w).2 in
  deref l (heap (session api loads cs w1).2) = catalog w1.
Proof.
  intros Hwf Hr. cbv zeta.
  destruct (list_models_answer api w l Hwf Hr) as (Hlt & Hd).
  rewrite (deref_prefix (heap (list_models api w).2)); [done| |done].
  apply session_extends_heap.
Qed.

Lemma list_models_answer_is_a_snapshot_witness :
  let w1 := (list_models upgraded fresh_adapter).2 in
  let w2 := (session upgraded repair_example [call_refresh_models] w1).2 in
  wf fresh_adapter ∧
  (list_models upgraded fresh_adapter).1 = Return 2%nat ∧
  catalog w2 = ["gpt-y"] ∧
  deref 2 (heap w2) = ["gpt-x"].
Proof.
  cbv zeta.
  assert (Hwf : wf fresh_adapter) by (unfold wf; cbn; lia).
  split; [exact Hwf|]. split; [reflexivity|]. split; [reflexivity|].
  exact (list_models_answer_is_a_snapshot upgraded repair_example fresh_adapter 2%nat
           [call_refresh_models] Hwf eq_refl).
Defined.

(** ** The catalog and the current model *)

(** X8.  A name accepted before the catalog was loaded is not checked
    again when the catalog arrives: if the listing does not have it, it is
    still the current model after [list_models], while [set_model] now
    refuses that very name. *)
Theorem unverified_model_survives_load (api : endpoint) (model_name : string)
    (w : world) :
  _models_loaded (self w) = false →
  model_name ≠ "" →
  (∀ data, models_reply api (sent w ++ [GET_models]) = Return data →
           model_name ∉ model_id <$> data) →
  let w1 := (set_model model_name w).2 in
  let w2 := (list_models api w1).2 in
  (set_model model_name w).1 = Return true ∧
  get_current_model w2 = (Return model_name, w2) ∧
  (model_name ∉ catalog w2) ∧
  set_model model_name w2 = (Return false, w2).
Proof.
  intros Hl Hne Hdata. cbv zeta.
  rewrite (set_model_run model_name w). cbv zeta. rewrite Hl.
  rewrite bool_decide_eq_true_2 by done. cbn [fst snd].
  set (w1 := {| self := with_current_model model_name (self w); heap := heap w;
                sent := sent w; logged := logged w ++ [INFO_set_unverified model_name] |}).
  split; [done|].
  rewrite (list_models_run api w1). cbv zeta.
  assert (Hl1 : _models_loaded (self w1) = false) by exact Hl.
  rewrite Hl1. cbn [snd].
  set (w2 := {| self := self (reloaded api w1);
                heap := heap (reloaded api w1) ++ [catalog (reloaded api w1)];
                sent := sent (reloaded api w1); logged := logged (reloaded api w1) |}).
  assert (Hc : catalog w2 = fetched api w1).
  { unfold catalog at 1. cbn [w2 self heap].
    rewrite deref_old by apply wf_reloaded. apply (catalog_reloaded api w1). }
  assert (Hout : model_name ∉ catalog w2).
  { rewrite Hc. unfold fetched. cbn [w1 sent].
    destruct (models_reply api (sent w ++ [GET_models])) as [data|e] eqn:Hr.
    - by apply Hdata.
    - apply not_elem_of_nil. }
  split; [done|]. split; [exact Hout|].
  rewrite set_model_run. cbv zeta.
  assert (Hl2 : _models_loaded (self w2) = true) by done.
  rewrite Hl2. by rewrite bool_decide_eq_false_2.
Qed.

Lemma unverified_model_survives_load_witness :
  let w2 := (list_models (serving ["gpt-x"; "gpt-y"] bare_reply)
               (set_model "gpt-z" fresh_adapter).2).2 in
  get_current_model w2 = (Return "gpt-z", w2) ∧
  catalog w2 = ["gpt-x"; "gpt-y"] ∧
  set_model "gpt-z" w2 = (Return false, w2).
Proof.
  cbv zeta.
  assert (Hne : "gpt-z" ≠ "") by discriminate.
  assert (Hd : ∀ data,
             models_reply (serving ["gpt-x"; "gpt-y"] bare_reply)
               (sent fresh_adapter ++ [GET_models]) = Return data →
             "gpt-z" ∉ model_id <$> data).
  { intros data [= <-]. apply (bool_decide_unpack _). vm_compute. exact I. }
  destruct (unverified_model_survives_load (serving ["gpt-x"; "gpt-y"] bare_reply)
              "gpt-z" fresh_adapter eq_refl Hne Hd) as (_ & Hg & _ & Hs).
  split; [exact Hg|]. split; [reflexivity | exact Hs].
Defined.

(** X9.  A refresh whose listing request fails throws the loaded
    catalog away: the catalog is empty afterwards, still marked loaded,
    the current model is untouched, and [set_model] refuses every name,
    those of the former catalog included. *)
Theorem failed_refresh_empties_catalog (api : endpoint) (w : world) (e : exn) :
  models_reply api (sent w ++ [GET_models]) = Raise e →
  let w' := (refresh_models api w).2 in
  catalog w' = [] ∧
  _models_loaded (self w') = true ∧
  _current_model (self w') = _current_model (self w) ∧
  ∀ model_name, set_model model_name w' = (Return false, w').
Proof.
  intros He. cbv zeta. rewrite refresh_models_run. cbn [snd].
  assert (Hc : catalog (reloaded api w) = []).
  { rewrite catalog_reloaded. unfold fetched. by rewrite He. }
  split; [exact Hc|]. split; [done|]. split; [done|].
  intros model_name. apply set_model_stuck.
  split; [apply wf_reloaded|]. split; [done | exact Hc].
Qed.

Lemma failed_refresh_empties_catalog_witness :
  catalog loaded_adapter = ["gpt-x"; "gpt-y"] ∧
  (set_model "gpt-x" loaded_adapter).1 = Return true ∧
  catalog (refresh_models unreachable loaded_adapter).2 = [] ∧
  (set_model "gpt-x" (refresh_models unreachable loaded_adapter).2).1 = Return false.
Proof.
  destruct (failed_refresh_empties_catalog unreachable loaded_adapter
              (Exn "APIConnectionError" "Connection error.") eq_refl)
    as (Hc & _ & _ & Hs).
  split; [reflexivity|]. split; [reflexivity|]. split; [exact Hc|].
  by rewrite Hs.
Defined.

(** X10.  Every refresh leaves exactly one record in the log: after a
    listing that came back, the number of models now in the catalog and
    the base URL; after one that failed, a warning with the exception,
    which is then the only trace of the failure. *)
Theorem refresh_models_logs_the_fetch (api : endpoint) (w : world) :
  let w' := (refresh_models api w).2 in
  (∀ data, models_reply api (sent w ++ [GET_models]) = Return data →
     logged w' = logged w ++ [INFO_fetched (length (catalog w')) (api_base (self w'))] ∧
     length (catalog w') = length data) ∧
  (∀ e, models_reply api (sent w ++ [GET_models]) = Raise e →
     logged w' = logged w ++ [WARNING_fetch_failed e] ∧
     (refresh_models api w).1 = Return true).
Proof.
  cbv zeta. rewrite refresh_models_run. cbn [fst snd]. rewrite catalog_reloaded.
  cbn [reloaded logged self api_base with_models_loaded with_available_models].
  unfold fetched, fetch_log. split.
  - intros data ->. by rewrite length_fmap.
  - by intros e ->.
Qed.

Lemma refresh_models_logs_the_fetch_witness :
  logged (refresh_models (serving ["gpt-x"; "gpt-y"] bare_reply) fresh_adapter).2
    = [INFO_fetched 2 "http://localhost:8000/v1"] ∧
  logged (refresh_models unreachable fresh_adapter).2
    = [WARNING_fetch_failed (Exn "APIConnectionError" "Connection error.")].
Proof.
  split.
  - destruct (refresh_models_logs_the_fetch (serving ["gpt-x"; "gpt-y"] bare_reply)
                fresh_adapter) as (H & _).
    destruct (H [Build_Model "gpt-x"; Build_Model "gpt-y"] eq_refl) as (Hlog & _).
    exact Hlog.
  - destruct (refresh_models_logs_the_fetch unreachable fresh_adapter) as (_ & H).
    destruct (H (Exn "APIConnectionError" "Connection error.") eq_refl) as (Hlog & _).
    exact Hlog.
Defined.

(** ** More on parsing the reply *)

Lemma parse_tool_calls_raises loads (pre post : list ToolCall) (tc : ToolCall)
    (s : string) (e : exn) (w : world) :
  Forall (repair_returns loads) pre →
  fn_arguments (tc_function tc) = PStr s →
  loads s = Raise e →
  parse_tool_calls loads (pre ++ tc :: post) w = (Raise e, w).
Proof.
  intros Hpre Hs He. induction Hpre as [|tc' pre Htc' _ IH].
  - cbn [app parse_tool_calls]. unfold bind at 1.
    unfold parse_tool_call. rewrite Hs. run. by rewrite He.
  - cbn [app parse_tool_calls]. unfold bind at 1.
    destruct (parse_tool_call_returns loads tc' w Htc') as (r & -> & _).
    unfold bind at 1. by rewrite IH.
Qed.

(** X11.  Tool calls are parsed all or none: when the repair step raises
    on the arguments of one tool call, the calls parsed before it are
    dropped with it and [chat] answers the error response carrying the
    text of that exception. *)
Theorem chat_drops_all_tool_calls_on_repair_failure (api : endpoint) loads
    (messages : list pydict) (tools : option (list pydict)) (model : option string)
    (max_tokens : Z) (temperature : float) (w : world)
    (response : ChatCompletion) (choice : Choice) (rest : list Choice)
    (pre post : list ToolCall) (tc : ToolCall) (s : string) (e : exn) :
  let kwargs := chat_request (self w) messages tools model max_tokens temperature in
  chat_reply api (sent w ++ [POST_chat_completions kwargs]) = Return response →
  choices response = choice :: rest →
  msg_tool_calls (choice_message choice) = Some (pre ++ tc :: post) →
  Forall (repair_returns loads) pre →
  fn_arguments (tc_function tc) = PStr s →
  loads s = Raise e →
  (chat api loads messages tools model max_tokens temperature w).1 =
    Return {| content := Some ("Error: " +:+ exn_str e); tool_calls := [];
              finish_reason := "error"; usage := ∅; reasoning_content := None |}.
Proof.
  cbv zeta. intros Hreply Hc Htcs Hpre Hs He. rewrite chat_run. cbv zeta. cbn [fst].
  unfold posted at 1. cbn [sent]. rewrite Hreply.
  unfold _parse. rewrite Hc. unfold bind at 1. unfold ret at 1. unfold bind at 1.
  rewrite Htcs. cbn [default].
  by rewrite (parse_tool_calls_raises loads pre post tc s e _ Hpre Hs He).
Qed.

Lemma chat_drops_all_tool_calls_on_repair_failure_witness :
  repair_strict "[1, 2]" = Return (PList [PInt 1; PInt 2]) ∧
  repair_strict "[3, 4,]" = Raise (Exn "ValueError" "cannot repair") ∧
  (chat (serving [] tools_reply) repair_strict [user_says "hi"] None None 4096
     0.5%float fresh_adapter).1 =
    Return {| content := Some "Error: cannot repair"; tool_calls := [];
              finish_reason := "error"; usage := ∅; reasoning_content := None |}.
Proof.
  split; [reflexivity|]. split; [reflexivity|].
  apply (chat_drops_all_tool_calls_on_repair_failure (serving [] tools_reply)
           repair_strict [user_says "hi"] None None 4096 0.5%float fresh_adapter
           tools_reply tools_choice [] [call_add] [] call_mul "[3, 4,]"
           (Exn "ValueError" "cannot repair")).
  - reflexivity.
  - reflexivity.
  - reflexivity.
  - constructor; [|constructor].
    intros s [= <-]. by eexists.
  - reflexivity.
  - reflexivity.
Defined.

Lemma parse_tool_calls_structured loads (tcs : list ToolCall) (w : world) :
  Forall (λ tc, ∀ s, fn_arguments (tc_function tc) ≠ PStr s) tcs →
  parse_tool_calls loads tcs w =
    (Return ((λ tc, {| call_id := tc_id tc; call_name := fn_name (tc_function tc);
                       call_arguments := fn_arguments (tc_function tc) |}) <$> tcs),
     w).
Proof.
  induction 1 as [|tc tcs Htc _ IH]; [done|].
  cbn [parse_tool_calls]. unfold bind at 1.
  assert (Hp : parse_tool_call loads tc w =
               (Return {| call_id := tc_id tc; call_name := fn_name (tc_function tc);
                          call_arguments := fn_arguments (tc_function tc) |}, w)).
  { unfold parse_tool_call. run.
    destruct (fn_arguments (tc_function tc)) as [| | | |s| |] eqn:Ha; try done.
    by destruct (Htc s). }
  rewrite Hp. unfold bind at 1. by rewrite IH.
Qed.

(** X12.  Arguments that the vendor sent as a structured value and not
    as a string are handed on untouched: the repair step is not consulted,
    so such a reply parses even with a repair step that always raises. *)
Theorem chat_passes_structured_arguments (api : endpoint) loads
    (messages : list pydict) (tools : option (list pydict)) (model : option string)
    (max_tokens : Z) (temperature : float) (w : world)
    (response : ChatCompletion) (choice : Choice) (rest : list Choice)
    (tcs : list ToolCall) :
  let kwargs := chat_request (self w) messages tools model max_tokens temperature in
  chat_reply api (sent w ++ [POST_chat_completions kwargs]) = Return response →
  choices response = choice :: rest →
  msg_tool_calls (choice_message choice) = Some tcs →
  Forall (λ tc, ∀ s, fn_arguments (tc_function tc) ≠ PStr s) tcs →
  ∃ resp,
    (chat api loads messages tools model max_tokens temperature w).1 = Return resp ∧
    tool_calls resp =
      (λ tc, {| call_id := tc_id tc; call_name := fn_name (tc_function tc);
                call_arguments := fn_arguments (tc_function tc) |}) <$> tcs.
Proof.
  cbv zeta. intros Hreply Hc Htcs Hargs. rewrite chat_run. cbv zeta. cbn [fst].
  unfold posted at 1. cbn [sent]. rewrite Hreply.
  unfold _parse. rewrite Hc. unfold bind at 1. unfold ret at 1. unfold bind at 1.
  rewrite Htcs. cbn [default].
  rewrite (parse_tool_calls_structured loads tcs _ Hargs).
  cbn. by eexists.
Qed.

Lemma chat_passes_structured_arguments_witness :
  ∃ resp,
    (chat (serving [] structured_reply)
       (λ _, Raise (Exn "ValueError" "cannot repair"))
       [user_says "hi"] None None 4096 0.5%float fresh_adapter).1 = Return resp ∧
    tool_calls resp =
      [{| call_id := "call_3"; call_name := "lookup";
          call_arguments := PDict [("city", PStr "Paris")] |}].
Proof.
  apply (chat_passes_structured_arguments (serving [] structured_reply)
           (λ _, Raise (Exn "ValueError" "cannot repair"))
           [user_says "hi"] None None 4096 0.5%float fresh_adapter
           structured_reply structured_choice [] [call_structured]).
  - reflexivity.
  - reflexivity.
  - reflexivity.
  - constructor; [|constructor]. intros s. discriminate.
Defined.

(** X13.  Only the first choice of a reply is read: two replies with the
    same first choice and the same usage give the same answer, whatever
    their other choices hold. *)
Theorem chat_reads_first_choice_only (api api' : endpoint) loads
    (messages : list pydict) (tools : option (list pydict)) (model : option string)
    (max_tokens : Z) (temperature : float) (w : world)
    (response response' : ChatCompletion) (choice : Choice) (rest rest' : list Choice) :
  let kwargs := chat_request (self w) messages tools model max_tokens temperature in
  chat_reply api (sent w ++ [POST_chat_completions kwargs]) = Return response →
  chat_reply api' (sent w ++ [POST_chat_completions kwargs]) = Return response' →
  choices response = choice :: rest →
  choices response' = choice :: rest' →
  resp_usage response = resp_usage response' →
  chat api loads messages tools model max_tokens temperature w =
    chat api' loads messages tools model max_tokens temperature w.
Proof.
  cbv zeta. intros Hr Hr' Hc Hc' Hu. rewrite !chat_run. cbv zeta.
  unfold posted. cbn [sent]. rewrite Hr, Hr'.
  unfold _parse. by rewrite Hc, Hc', Hu.
Qed.

Lemma chat_reads_first_choice_only_witness :
  chat (serving [] bare_reply) repair_strict [user_says "hi"] None None 4096
    0.5%float fresh_adapter =
  chat (serving [] two_choice_reply) repair_strict [user_says "hi"] None None 4096
    0.5%float fresh_adapter.
Proof.
  apply (chat_reads_first_choice_only (serving [] bare_reply)
           (serving [] two_choice_reply) repair_strict [user_says "hi"] None None
           4096 0.5%float fresh_adapter bare_reply two_choice_reply bare_choice
           [] [tools_choice]); reflexivity.
Defined.

(** X14.  Parts of the reply that are present but empty: an empty finish
    reason reads ["stop"] and an empty reasoning trace becomes null, as if
    they were missing, and an empty tool-call list gives no requests; an
    empty content string is handed on as the empty string. *)
Theorem chat_parse_empty_parts (api : endpoint) loads (messages : list pydict)
    (tools : option (list pydict)) (model : option string) (max_tokens : Z)
    (temperature : float) (w : world)
    (response : ChatCompletion) (choice : Choice) (rest : list Choice) :
  let kwargs := chat_request (self w) messages tools model max_tokens temperature in
  chat_reply api (sent w ++ [POST_chat_completions kwargs]) = Return response →
  choices response = choice :: rest →
  Forall (repair_returns loads) (default [] (msg_tool_calls (choice_message choice))) →
  ∃ resp,
    (chat api loads messages tools model max_tokens temperature w).1 = Return resp ∧
    (choice_finish_reason choice = Some "" → finish_reason resp = "stop") ∧
    (msg_reasoning_content (choice_message choice) = Some "" →
       reasoning_content resp = None) ∧
    (msg_tool_calls (choice_message choice) = Some [] → tool_calls resp = []) ∧
    (msg_content (choice_message choice) = Some "" → content resp = Some "").
Proof.
  cbv zeta. intros Hreply Hc Hr. rewrite chat_run. cbv zeta. cbn [fst].
  unfold posted at 1. cbn [sent]. rewrite Hreply.
  destruct (_parse_returns loads response choice rest
              (posted (chat_request (self w) messages tools model max_tokens temperature) w)
              Hc Hr) as (rs & Hprs & Hp).
  rewrite Hp. cbn [fst]. eexists. split; [reflexivity|]. cbn.
  split; [by intros ->|]. split; [by intros ->|].
  split; [|done].
  intros Htc. rewrite Htc in Hprs. cbn in Hprs. by inversion Hprs.
Qed.

Lemma chat_parse_empty_parts_witness :
  ∃ resp,
    (chat (serving [] blank_reply) repair_example [user_says "hi"] None None 4096
       0.5%float fresh_adapter).1 = Return resp ∧
    finish_reason resp = "stop" ∧
    reasoning_content resp = None ∧
    tool_calls resp = [] ∧
    content resp = Some "".
Proof.
  destruct (chat_parse_empty_parts (serving [] blank_reply) repair_example
              [user_says "hi"] None None 4096 0.5%float fresh_adapter
              blank_reply blank_choice [])
    as (resp & Hr & Hf & Hrc & Htc & Hc).
  - reflexivity.
  - reflexivity.
  - constructor.
  - exists resp. split; [exact Hr|]. split; [exact (Hf eq_refl)|].
    split; [exact (Hrc eq_refl)|]. split; [exact (Htc eq_refl) | exact (Hc eq_refl)].
Defined.

(** ** Lists handed out during a session *)

Lemma session_keeps_wf (api : endpoint) loads (cs : list call) (w : world) :
  wf w → wf (session api loads cs w).2.
Proof.
  revert w. induction cs as [|c cs IH]; intros w Hwf; [done|].
  cbn [session snd]. apply IH. by apply invoke_keeps_wf.
Qed.

(** A list that is not the catalog's stays apart from it: the catalog
    attribute only ever moves to a list allocated later. *)
Lemma invoke_keeps_apart (api : endpoint) loads (c : call) (w : world) (l : nat) :
  (l < length (heap w))%nat →
  l ≠ _available_models (self w) →
  (l < length (heap (invoke api loads c w).2))%nat ∧
  l ≠ _available_models (self (invoke api loads c w).2).
Proof.
  intros Hlt Hne. destruct c; cbn [invoke snd].
  - by rewrite chat_run.
  - done.
  - rewrite list_models_run. cbv zeta. cbn [snd self heap].
    destruct (_models_loaded (self w)).
    + split; [rewrite length_app; lia | done].
    + cbn [reloaded self heap with_models_loaded with_available_models
           _available_models].
      split; [rewrite !length_app; lia | lia].
  - done.
  - destruct (set_model_frame model_name w) as (-> & _ & [-> | ->]); done.
  - rewrite refresh_models_run.
    cbn [snd reloaded self heap with_models_loaded with_available_models
         _available_models].
    split; [rewrite length_app; lia | lia].
Qed.

Lemma session_keeps_apart (api : endpoint) loads (cs : list call) (w : world) (l : nat) :
  (l < length (heap w))%nat →
  l ≠ _available_models (self w) →
  l ≠ _available_models (self (session api loads cs w).2).
Proof.
  revert w. induction cs as [|c cs IH]; intros w Hlt Hne; [done|].
  cbn [session snd].
  destruct (invoke_keeps_apart api loads c w l Hlt Hne) as (Hlt' & Hne').
  by apply IH.
Qed.

Lemma invoke_answers_fresh_list (api : endpoint) loads (c : call) (w : world) (l : nat) :
  wf w →
  (invoke api loads c w).1 = ans_list (Return l) →
  (l < length (heap (invoke api loads c w).2))%nat ∧
  l ≠ _available_models (self (invoke api loads c w).2).
Proof.
  intros Hwf. destruct c; cbn [invoke fst snd]; try discriminate.
  rewrite list_models_run. cbv zeta. cbn [fst snd self heap].
  set (w0 := if _models_loaded (self w) then w else reloaded api w).
  assert (Hwf0 : wf w0).
  { subst w0. destruct (_models_loaded (self w)); [done | apply wf_reloaded]. }
  intros [= <-]. unfold wf in Hwf0.
  split; [rewrite length_app; cbn; lia | lia].
Qed.

(** X15.  No list that [list_models] handed out in the course of a
    session is the list the catalog refers to at the end of it: the caller
    may write to any of them and the catalog stays as it is. *)
Theorem handed_out_lists_never_alias_catalog (api : endpoint) loads
    (cs : list call) (w : world) (l : nat) :
  wf w →
  ans_list (Return l) ∈ (session api loads cs w).1 →
  let w' := (session api loads cs w).2 in
  l ≠ _available_models (self w') ∧
  ∀ xs, catalog (caller_writes l xs w') = catalog w'.
Proof.
  intros Hwf Hin. cbv zeta.
  assert (Hne : l ≠ _available_models (self (session api loads cs w).2)).
  { revert w Hwf Hin. induction cs as [|c cs IH]; intros w Hwf Hin.
    - cbn in Hin. by apply elem_of_nil in Hin.
    - cbn [session fst snd] in Hin |- *.
      apply elem_of_cons in Hin as [Hhd | Htl].
      + symmetry in Hhd.
        destruct (invoke_answers_fresh_list api loads c w l Hwf Hhd) as (Hlt & Hne).
        by apply session_keeps_apart.
      + apply IH; [by apply invoke_keeps_wf | done]. }
  split; [exact Hne|].
  intros xs. by apply catalog_caller_writes.
Qed.

Lemma handed_out_lists_never_alias_catalog_witness :
  let cs := [call_list_models; call_refresh_models; call_list_models] in
  let w' := (session upgraded repair_example cs fresh_adapter).2 in
  wf fresh_adapter ∧
  ans_list (Return 2%nat) ∈ (session upgraded repair_example cs fresh_adapter).1 ∧
  catalog w' = ["gpt-y"] ∧
  catalog (caller_writes 2 ["gpt-z"] w') = ["gpt-y"].
Proof.
  cbv zeta.
  assert (Hwf : wf fresh_adapter) by (unfold wf; cbn; lia).
  assert (Hin : ans_list (Return 2%nat) ∈
                (session upgraded repair_example
                   [call_list_models; call_refresh_models; call_list_models]
                   fresh_adapter).1).
  { apply list_elem_of_In. vm_compute. left. reflexivity. }
  split; [exact Hwf|]. split; [exact Hin|]. split; [reflexivity|].
  destruct (handed_out_lists_never_alias_catalog upgraded repair_example
              [call_list_models; call_refresh_models; call_list_models]
              fresh_adapter 2%nat Hwf Hin) as (_ & Hw).
  exact (Hw ["gpt-z"]).
Defined.
